(** * Session-scoped multi-artifact context engine: a shallow embedding

    The Python back end keeps two process-wide dictionaries
    ([app.state.sessions] and [app.state.chat_history]), a sliding-window
    rate limiter, a text splitter and the prompt assembly of the chat
    service.  Each function below is translated from the source file named
    in its comment; state is passed explicitly, exceptions are values.

    Conventions.
    - A Python [str] is a list of characters ([list ascii]): [len],
      slicing, [split], [strip] and [join] are list operations.
    - A Python [dict] whose iteration order is observable (the per-kind
      artifact mappings) is an insertion-ordered association list; the two
      top-level dictionaries, which are only looked up, inserted into and
      deleted from, are [gmap]s.
    - [time.time()] values are exact integers supplied by the caller.
    - Unlinking files, opening images and the completion call are
      oracles: only their outcome (returned / raised) is observable. *)

From Stdlib Require Import Ascii String ZArith Lia DecimalString Permutation.
From stdpp Require Import gmap strings list fin_maps sorting.

Abbreviation str := (list ascii).

(** ** Python primitives *)

Module Py.

(** A string literal. *)
Definition lit (s : string) : str := list_ascii_of_string s.

(** The line feed of ["\n"]. *)
Definition nl : str := ["010"%char].

(** [len(x)] as a Python int. *)
Definition len {A} (l : list A) : Z := Z.of_nat (length l).

(** [l[:n]] *)
Definition slice_to {A} (n : Z) (l : list A) : list A :=
  if (0 <=? n)%Z then take (Z.to_nat n) l
  else take (length l - Z.to_nat (- n)) l.

(** [l[n:]] *)
Definition slice_from {A} (n : Z) (l : list A) : list A :=
  if (0 <=? n)%Z then drop (Z.to_nat n) l
  else drop (length l - Z.to_nat (- n)) l.

(** [sep.join(parts)] *)
Fixpoint join (sep : str) (parts : list str) : str :=
  match parts with
  | [] => []
  | [p] => p
  | p :: rest => p ++ sep ++ join sep rest
  end.

(** [str(n)] for a non-negative int, as an f-string renders it. *)
Definition str_of_nat (n : nat) : str :=
  lit (NilEmpty.string_of_uint (Nat.to_uint n)).

Definition str_of_Z (z : Z) : str :=
  lit (NilEmpty.string_of_int (Z.to_int z)).

(** [c.upper()] on the ASCII letters. *)
Definition upper_char (c : ascii) : ascii :=
  let n := nat_of_ascii c in
  if (97 <=? n)%nat && (n <=? 122)%nat then ascii_of_nat (n - 32) else c.

Definition upper (s : str) : str := map upper_char s.

(** [c.isspace()] on the code points below 256. *)
Definition isspace (c : ascii) : bool :=
  let n := nat_of_ascii c in
  ((9 <=? n)%nat && (n <=? 13)%nat) || ((28 <=? n)%nat && (n <=? 32)%nat)
  || (n =? 133)%nat || (n =? 160)%nat.

Fixpoint lstrip (s : str) : str :=
  match s with
  | c :: s' => if isspace c then lstrip s' else s
  | [] => []
  end.

Definition rstrip (s : str) : str := rev (lstrip (rev s)).

(** [s.strip()] *)
Definition strip (s : str) : str := rstrip (lstrip s).

(** [s.startswith(p)] *)
Fixpoint startswith (p s : str) : bool :=
  match p, s with
  | [], _ => true
  | a :: p', b :: s' => if Ascii.eqb a b then startswith p' s' else false
  | _ :: _, [] => false
  end.

(** [s.endswith(p)] *)
Definition endswith (p s : str) : bool := startswith (rev p) (rev s).

(** [p in s] for strings. *)
Fixpoint contains (p s : str) : bool :=
  startswith p s || match s with [] => false | _ :: s' => contains p s' end.

End Py.

(** ** Insertion-ordered dictionaries *)

Module Dict.

Definition t (V : Type) : Type := list (str * V).

Section Ops.
Context {V : Type}.

(** [d.get(k)] *)
Fixpoint get (k : str) (d : t V) : option V :=
  match d with
  | [] => None
  | (k', v) :: d' => if decide (k = k') then Some v else get k d'
  end.

(** [k in d] *)
Definition mem (k : str) (d : t V) : bool :=
  match get k d with Some _ => true | None => false end.

(** [d[k] = v]: an existing key keeps its position, a new one goes last. *)
Fixpoint setitem (k : str) (v : V) (d : t V) : t V :=
  match d with
  | [] => [(k, v)]
  | (k', v') :: d' =>
      if decide (k = k') then (k, v) :: d' else (k', v') :: setitem k v d'
  end.

(** [del d[k]] (the caller has checked [k in d]). *)
Fixpoint delitem (k : str) (d : t V) : t V :=
  match d with
  | [] => []
  | (k', v') :: d' =>
      if decide (k = k') then d' else (k', v') :: delitem k d'
  end.

(** [not d] *)
Definition is_empty (d : t V) : bool :=
  match d with [] => true | _ :: _ => false end.

(** [d.items()], [d.keys()], [d.values()] in iteration order. *)
Definition items (d : t V) : list (str * V) := d.
Definition keys (d : t V) : list str := d.*1.
Definition values (d : t V) : list V := d.*2.

(** Keys of a dictionary are pairwise distinct. *)
Definition wf (d : t V) : Prop := NoDup (keys d).
End Ops.

End Dict.

(** ** Data model *)

(** A loaded [pandas.DataFrame], as far as the prompt shows it. *)
Record DataFrame := {
  df_rows : nat;
  df_cols : nat;
  df_columns : list str;
  df_head_to_string : str;
  df_describe_to_string : str
}.

Record ImageInfo := {
  img_path : str;
  img_resized_path : option str;
  img_filename : str;
  img_uploaded_at : Z
}.

Record CsvInfo := {
  csv_path : option str;
  csv_filename : str;
  csv_df : DataFrame;
  csv_uploaded_at : Z
}.

Record DocInfo := {
  doc_path : str;
  doc_filename : str;
  doc_text : str;
  doc_uploaded_at : Z
}.

Record Session := {
  images : Dict.t ImageInfo;
  csvs : Dict.t CsvInfo;
  documents : Dict.t DocInfo;
  created_at : Z;
  last_activity : Z
}.

Record FileCounts := {
  images_count : nat;
  csvs_count : nat;
  documents_count : nat
}.

Inductive Role := user | assistant.

Record Message := {
  role : Role;
  content : str;
  timestamp : Z;
  context : option FileCounts
}.

Record AppState := {
  sessions : gmap str Session;
  chat_history : gmap str (list Message)
}.

Inductive Kind := Images | Csvs | Documents.

(** What an endpoint does: it returns a body or raises [HTTPException]. *)
Inductive http_result (A : Type) :=
| Returned (body : A)
| HTTPException (status_code : Z) (detail : str).
Arguments Returned {A} body.
Arguments HTTPException {A} status_code detail.

Definition set_images (d : Dict.t ImageInfo) (s : Session) : Session :=
  {| images := d; csvs := csvs s; documents := documents s;
     created_at := created_at s; last_activity := last_activity s |}.

Definition set_csvs (d : Dict.t CsvInfo) (s : Session) : Session :=
  {| images := images s; csvs := d; documents := documents s;
     created_at := created_at s; last_activity := last_activity s |}.

Definition set_documents (d : Dict.t DocInfo) (s : Session) : Session :=
  {| images := images s; csvs := csvs s; documents := d;
     created_at := created_at s; last_activity := last_activity s |}.

Definition set_last_activity (t : Z) (s : Session) : Session :=
  {| images := images s; csvs := csvs s; documents := documents s;
     created_at := created_at s; last_activity := t |}.

(** Number of artifacts of all three kinds. *)
Definition artifact_count (s : Session) : nat :=
  length (images s) + length (csvs s) + length (documents s).

Definition has_artifact (k : Kind) (file_id : str) (s : Session) : bool :=
  match k with
  | Images => Dict.mem file_id (images s)
  | Csvs => Dict.mem file_id (csvs s)
  | Documents => Dict.mem file_id (documents s)
  end.

Definition kind_count (k : Kind) (s : Session) : nat :=
  match k with
  | Images => length (images s)
  | Csvs => length (csvs s)
  | Documents => length (documents s)
  end.

(** [if session_id in chat_history: del chat_history[session_id]] *)
Definition drop_history (session_id : str) (h : gmap str (list Message))
  : gmap str (list Message) :=
  match h !! session_id with
  | Some _ => delete session_id h
  | None => h
  end.


(** ** Deletion endpoints
    [api/v1/endpoints/upload_image.py], [upload_csv.py], [upload_doc.py] *)

Record BulkDeleteResponse := {
  bd_status : str;
  bd_count : nat;
  bd_history_cleared : option bool   (* [None]: the key is not in the body *)
}.

Record SingleDeleteResponse := {
  sd_status : str;
  sd_file_id : str
}.

Section Deletion.

(** [Path(p).unlink(missing_ok=True)] returned ([true]) or raised. *)
Variable unlink : str -> bool.

(** The [deleted_count += 1] of one loop round: it is reached when the
    unlink before it did not raise. *)
Definition unlinked (p : str) : nat := if unlink p then 1 else 0.

(** [delete_all_images], upload_image.py:126-163. *)
Definition delete_all_images (session_id : str) (st : AppState)
  : AppState * BulkDeleteResponse :=
  match sessions st !! session_id with
  | Some sess =>
      let deleted_count :=
        foldl (fun n '(_, image_info) => n + unlinked (img_path image_info))
              0 (Dict.items (images sess)) in
      let sess := set_images [] sess in
      let sessions' := <[session_id := sess]> (sessions st) in
      let history' :=
        if Dict.is_empty (csvs sess) && Dict.is_empty (documents sess)
        then drop_history session_id (chat_history st)
        else chat_history st in
      ({| sessions := sessions'; chat_history := history' |},
       {| bd_status := Py.lit "deleted"; bd_count := deleted_count;
          bd_history_cleared := Some true |})
  | None =>
      (st, {| bd_status := Py.lit "not_found"; bd_count := 0;
              bd_history_cleared := None |})
  end.

(** [delete_all_csvs], upload_csv.py:154-184.  A CSV loaded from a URL has
    no ["path"] key and is not counted. *)
Definition delete_all_csvs (session_id : str) (st : AppState)
  : AppState * BulkDeleteResponse :=
  match sessions st !! session_id with
  | Some sess =>
      let deleted_count :=
        foldl (fun n '(_, csv_info) =>
                 match csv_path csv_info with
                 | Some p => n + unlinked p
                 | None => n
                 end)
              0 (Dict.items (csvs sess)) in
      let sess := set_csvs [] sess in
      let sessions' := <[session_id := sess]> (sessions st) in
      let history' :=
        if Dict.is_empty (images sess) && Dict.is_empty (documents sess)
        then drop_history session_id (chat_history st)
        else chat_history st in
      ({| sessions := sessions'; chat_history := history' |},
       {| bd_status := Py.lit "deleted"; bd_count := deleted_count;
          bd_history_cleared := Some true |})
  | None =>
      (st, {| bd_status := Py.lit "not_found"; bd_count := 0;
              bd_history_cleared := None |})
  end.

(** [delete_all_documents], upload_doc.py:114-141. *)
Definition delete_all_documents (session_id : str) (st : AppState)
  : AppState * BulkDeleteResponse :=
  match sessions st !! session_id with
  | Some sess =>
      let deleted_count :=
        foldl (fun n '(_, doc_info) => n + unlinked (doc_path doc_info))
              0 (Dict.items (documents sess)) in
      let sess := set_documents [] sess in
      let sessions' := <[session_id := sess]> (sessions st) in
      let history' :=
        if Dict.is_empty (images sess) && Dict.is_empty (csvs sess)
        then drop_history session_id (chat_history st)
        else chat_history st in
      ({| sessions := sessions'; chat_history := history' |},
       {| bd_status := Py.lit "deleted"; bd_count := deleted_count;
          bd_history_cleared := Some true |})
  | None =>
      (st, {| bd_status := Py.lit "not_found"; bd_count := 0;
              bd_history_cleared := None |})
  end.

End Deletion.

(** The three-way check of the single-artifact handlers, on the session as
    it is after the [del]. *)
Definition no_files_remain (sess : Session) : bool :=
  Dict.is_empty (images sess) && Dict.is_empty (csvs sess)
  && Dict.is_empty (documents sess).

(** [delete_single_image], upload_image.py:166-203.  The unlinks before the
    [del] are wrapped in [try]/[except] and change nothing in the stores. *)
Definition delete_single_image (session_id file_id : str) (st : AppState)
  : AppState * http_result SingleDeleteResponse :=
  match sessions st !! session_id with
  | Some sess =>
      if Dict.mem file_id (images sess) then
        let sess := set_images (Dict.delitem file_id (images sess)) sess in
        let sessions' := <[session_id := sess]> (sessions st) in
        let history' :=
          if no_files_remain sess
          then drop_history session_id (chat_history st)
          else chat_history st in
        ({| sessions := sessions'; chat_history := history' |},
         Returned {| sd_status := Py.lit "deleted"; sd_file_id := file_id |})
      else (st, HTTPException 404 (Py.lit "Image not found"))
  | None => (st, HTTPException 404 (Py.lit "Image not found"))
  end.

(** [delete_single_csv], upload_csv.py:187-217. *)
Definition delete_single_csv (session_id file_id : str) (st : AppState)
  : AppState * http_result SingleDeleteResponse :=
  match sessions st !! session_id with
  | Some sess =>
      if Dict.mem file_id (csvs sess) then
        let sess := set_csvs (Dict.delitem file_id (csvs sess)) sess in
        let sessions' := <[session_id := sess]> (sessions st) in
        let history' :=
          if no_files_remain sess
          then drop_history session_id (chat_history st)
          else chat_history st in
        ({| sessions := sessions'; chat_history := history' |},
         Returned {| sd_status := Py.lit "deleted"; sd_file_id := file_id |})
      else (st, HTTPException 404 (Py.lit "CSV not found"))
  | None => (st, HTTPException 404 (Py.lit "CSV not found"))
  end.

(** [delete_single_document], upload_doc.py:144-170. *)
Definition delete_single_document (session_id file_id : str) (st : AppState)
  : AppState * http_result SingleDeleteResponse :=
  match sessions st !! session_id with
  | Some sess =>
      if Dict.mem file_id (documents sess) then
        let sess := set_documents (Dict.delitem file_id (documents sess)) sess in
        let sessions' := <[session_id := sess]> (sessions st) in
        let history' :=
          if no_files_remain sess
          then drop_history session_id (chat_history st)
          else chat_history st in
        ({| sessions := sessions'; chat_history := history' |},
         Returned {| sd_status := Py.lit "deleted"; sd_file_id := file_id |})
      else (st, HTTPException 404 (Py.lit "Document not found"))
  | None => (st, HTTPException 404 (Py.lit "Document not found"))
  end.

(** The single-artifact and the bulk handler of each kind. *)
Definition delete_single (k : Kind) :=
  match k with
  | Images => delete_single_image
  | Csvs => delete_single_csv
  | Documents => delete_single_document
  end.

Definition delete_all (unlink : str -> bool) (k : Kind) :=
  match k with
  | Images => delete_all_images unlink
  | Csvs => delete_all_csvs unlink
  | Documents => delete_all_documents unlink
  end.


(** ** Rate limiter, [middleware/rate_limiter.py] *)

Record RateLimiter := {
  requests_per_minute : Z;
  requests : gmap str (list Z)        (* a [defaultdict(list)] *)
}.

(** Reading [self.requests[client_ip]] of the [defaultdict]. *)
Definition recorded (client_ip : str) (rl : RateLimiter) : list Z :=
  default [] (requests rl !! client_ip).

Definition set_requests (client_ip : str) (l : list Z) (rl : RateLimiter)
  : RateLimiter :=
  {| requests_per_minute := requests_per_minute rl;
     requests := <[client_ip := l]> (requests rl) |}.

(** [RateLimiter.dispatch], rate_limiter.py:25-58.  The body returned is
    the value of the [X-RateLimit-Remaining] header. *)
Definition dispatch (client_ip : str) (now : Z) (rl : RateLimiter)
  : RateLimiter * http_result Z :=
  let kept := filter (fun req_time => (now - req_time < 60)%Z)
                     (recorded client_ip rl) in
  let rl := set_requests client_ip kept rl in
  if (Py.len (recorded client_ip rl) >=? requests_per_minute rl)%Z then
    (rl, HTTPException 429
           (Py.lit "Rate limit exceeded. Max "
            ++ Py.str_of_Z (requests_per_minute rl)
            ++ Py.lit " requests per minute."))
  else
    let rl := set_requests client_ip (recorded client_ip rl ++ [now]) rl in
    (rl, Returned (requests_per_minute rl - Py.len (recorded client_ip rl))%Z).

(** The admission decision of one request. *)
Definition admitted {A} (r : http_result A) : bool :=
  match r with Returned _ => true | HTTPException _ _ => false end.

(** A client's requests at the given times, one after the other. *)
Fixpoint dispatch_all (client_ip : str) (times : list Z) (rl : RateLimiter)
  : RateLimiter * list bool :=
  match times with
  | [] => (rl, [])
  | now :: rest =>
      let '(rl, r) := dispatch client_ip now rl in
      let '(rl, rs) := dispatch_all client_ip rest rl in
      (rl, admitted r :: rs)
  end.

(** The timestamps that survive the purge at time [now]. *)
Definition window (now : Z) (l : list Z) : list Z :=
  filter (fun t => ~ (now - t >= 60)%Z) l.

(** A limiter of 3 requests per minute that has seen no request. *)
Definition limiter3 : RateLimiter :=
  {| requests_per_minute := 3; requests := ∅ |}.

(** ** History read endpoint, [api/v1/endpoints/chat.py] *)

Record HistoryResponse := {
  hr_session_id : str;
  hr_total_messages : nat;
  hr_messages : list Message
}.

(** [get_chat_history], chat.py:133-144. *)
Definition get_chat_history (session_id : str) (limit : Z) (st : AppState)
  : HistoryResponse :=
  match chat_history st !! session_id with
  | Some history =>
      {| hr_session_id := session_id;
         hr_total_messages := length history;
         hr_messages := if (limit =? 0)%Z then history
                        else Py.slice_from (- limit) history |}
  | None =>
      {| hr_session_id := session_id; hr_total_messages := 0;
         hr_messages := [] |}
  end.

(** ** Upload order of a session's files, [chat.py:60-76] *)

Record FileDesc := {
  fd_type : Kind;
  fd_file_id : str;
  fd_filename : str;
  fd_uploaded_at : Z
}.

(** The dictionary key of a kind: the [ftype] of the loop. *)
Definition kind_name (k : Kind) : str :=
  match k with
  | Images => Py.lit "images"
  | Csvs => Py.lit "csvs"
  | Documents => Py.lit "documents"
  end.

(** What a chat turn sees of a session: its three mappings. *)
Record SessionData := {
  sd_images : Dict.t ImageInfo;
  sd_csvs : Dict.t CsvInfo;
  sd_documents : Dict.t DocInfo
}.

(** The nested loop filling [all_files]: images, then CSVs, then
    documents, each mapping in its iteration order. *)
Definition collect_files (sd : SessionData) : list FileDesc :=
  map (fun '(fid, finfo) =>
         {| fd_type := Images; fd_file_id := fid;
            fd_filename := img_filename finfo;
            fd_uploaded_at := img_uploaded_at finfo |})
      (Dict.items (sd_images sd))
  ++ map (fun '(fid, finfo) =>
         {| fd_type := Csvs; fd_file_id := fid;
            fd_filename := csv_filename finfo;
            fd_uploaded_at := csv_uploaded_at finfo |})
      (Dict.items (sd_csvs sd))
  ++ map (fun '(fid, finfo) =>
         {| fd_type := Documents; fd_file_id := fid;
            fd_filename := doc_filename finfo;
            fd_uploaded_at := doc_uploaded_at finfo |})
      (Dict.items (sd_documents sd)).

(** [list.sort(key=...)] is a stable sort: elements with equal keys keep
    their relative order.  Insertion from the right, placing an element
    before the first one whose key is not smaller, is such a sort. *)
Section Sort.
Context {A : Type} (key : A -> Z).

Fixpoint insert_sorted (x : A) (l : list A) : list A :=
  match l with
  | [] => [x]
  | y :: l' =>
      if (key x <=? key y)%Z then x :: l else y :: insert_sorted x l'
  end.

Fixpoint sort_by (l : list A) : list A :=
  match l with
  | [] => []
  | x :: l' => insert_sorted x (sort_by l')
  end.
(** Ascending keys: every element is below all the later ones. *)
Definition ascending : list A -> Prop :=
  StronglySorted (fun a b => (key a <= key b)%Z).
End Sort.

(** [all_files] after [all_files.sort(key=lambda f: f["uploaded_at"])]. *)
Definition all_files (sd : SessionData) : list FileDesc :=
  sort_by fd_uploaded_at (collect_files sd).

(** One line of the index: [f"[{i+1}] {f['type'].upper()} → {f['filename']}"]. *)
Definition index_line (i : nat) (f : FileDesc) : str :=
  Py.lit "[" ++ Py.str_of_nat (i + 1) ++ Py.lit "] "
  ++ Py.upper (kind_name (fd_type f)) ++ Py.lit " → " ++ fd_filename f.

Definition index_lines (files : list FileDesc) : list str :=
  imap index_line files.

(** [ordered_context] *)
Definition ordered_context (sd : SessionData) : str :=
  Py.join Py.nl (index_lines (all_files sd)).


(** ** Prompt assembly, [services/gemini_service.py] *)

Definition max_chars_per_doc : Z := 15000.
Definition max_total_chars : Z := 50000.

Definition doc_truncated_marker : str :=
  Py.nl ++ Py.nl ++ Py.lit "[Document truncated...]".

Definition remaining_truncated_marker : str :=
  Py.nl ++ Py.nl ++ Py.lit "[Remaining documents truncated...]".

(** [text[:max_chars_per_doc]] followed by the marker when
    [len(text) > max_chars_per_doc], gemini_service.py:90-92. *)
Definition truncate_doc (text : str) : str :=
  Py.slice_to max_chars_per_doc text
  ++ (if (Py.len text >? max_chars_per_doc)%Z then doc_truncated_marker
      else []).

(** [f"\n--- Document: {filename} (file_id: {file_id}) ---"] *)
Definition doc_header (file_id : str) (doc_info : DocInfo) : str :=
  Py.nl ++ Py.lit "--- Document: " ++ doc_filename doc_info
  ++ Py.lit " (file_id: " ++ file_id ++ Py.lit ") ---".

(** The document loop, gemini_service.py:87-103: the entries it appends to
    [doc_context], started with [total_chars] characters already counted.
    The [break] ends the recursion. *)
Fixpoint doc_loop (items : list (str * DocInfo)) (total_chars : Z)
  : list str :=
  match items with
  | [] => []
  | (file_id, doc_info) :: rest =>
      let truncated_text := truncate_doc (doc_text doc_info) in
      if (total_chars + Py.len truncated_text >? max_total_chars)%Z then
        let remaining := (max_total_chars - total_chars)%Z in
        if (remaining >? 1000)%Z then
          [doc_header file_id doc_info;
           Py.slice_to remaining truncated_text ++ remaining_truncated_marker]
        else []
      else
        doc_header file_id doc_info :: truncated_text
        :: doc_loop rest (total_chars + Py.len truncated_text)
  end.

(** [doc_context] at the end of step 4. *)
Definition doc_context (documents : Dict.t DocInfo) : list str :=
  Py.lit "Document Context:" :: doc_loop (Dict.items documents) 0.

(** The five entries of one CSV, gemini_service.py:70-77. *)
Definition csv_entries (file_id : str) (csv_info : CsvInfo) : list str :=
  let df := csv_df csv_info in
  [ Py.nl ++ Py.lit "--- CSV File: " ++ csv_filename csv_info
      ++ Py.lit " (file_id: " ++ file_id ++ Py.lit ") ---";
    Py.lit "Shape: " ++ Py.str_of_nat (df_rows df) ++ Py.lit " rows, "
      ++ Py.str_of_nat (df_cols df) ++ Py.lit " columns";
    Py.lit "Columns: " ++ Py.join (Py.lit ", ") (df_columns df);
    Py.nl ++ Py.lit "First 5 rows:" ++ Py.nl ++ df_head_to_string df;
    Py.nl ++ Py.lit "Summary statistics:" ++ Py.nl ++ df_describe_to_string df ].

Definition csv_context (csvs : Dict.t CsvInfo) : list str :=
  Py.lit "CSV Data Context:"
  :: flat_map (fun '(file_id, csv_info) => csv_entries file_id csv_info)
              (Dict.items csvs).

Definition role_name (r : Role) : str :=
  match r with user => Py.lit "user" | assistant => Py.lit "assistant" end.

(** [history_text], gemini_service.py:52-55. *)
Definition history_text (history : list Message) : str :=
  Py.join Py.nl
    (map (fun msg => role_name (role msg) ++ Py.lit ": " ++ content msg)
         (Py.slice_to (-1) history)).

Definition nonempty {A} (l : list A) : bool :=
  match l with [] => false | _ :: _ => true end.

Section Assembly.

(** A decoded image, and [Image.open]: [None] when it raises. *)
Variable PILImage : Type.
Variable Image_open : str -> option PILImage.

Inductive Part :=
| PText (s : str)
| PImage (img : PILImage).

(** [image_info.get('resized_path') or image_info['path']] *)
Definition image_path (image_info : ImageInfo) : str :=
  match img_resized_path image_info with
  | Some p => if nonempty p then p else img_path image_info
  | None => img_path image_info
  end.

(** One round of the image loop, gemini_service.py:109-119. *)
Definition image_entries (file_id : str) (image_info : ImageInfo)
  : list Part :=
  let filename := img_filename image_info in
  match Image_open (image_path image_info) with
  | Some img =>
      [PImage img;
       PText (Py.lit "[Image: " ++ filename ++ Py.lit " (file_id: "
              ++ file_id ++ Py.lit ")]")]
  | None =>
      [PText (Py.lit "[Failed to load image: " ++ filename ++ Py.lit "]")]
  end.

(** The image loop, gemini_service.py:109-119. *)
Definition image_loop (images : Dict.t ImageInfo) : list Part :=
  flat_map (fun '(file_id, image_info) => image_entries file_id image_info)
           (Dict.items images).

Definition images_note (images : Dict.t ImageInfo) : list Part :=
  if (Py.len images >? 1)%Z then
    [PText (Py.nl ++ Py.lit "Note: " ++ Py.str_of_Z (Py.len images)
            ++ Py.lit " images have been uploaded. "
            ++ Py.lit "Please refer to them by filename when answering.")]
  else [].

(** [context_parts] when [model.generate_content] is called,
    gemini_service.py:48-127. *)
Definition context_parts (message : str) (history : list Message)
    (images : Dict.t ImageInfo) (csvs : Dict.t CsvInfo)
    (documents : Dict.t DocInfo) (ordered_context : str) : list Part :=
  (* 1: conversation history *)
  (if nonempty history && nonempty (history_text history) then
     [PText (Py.lit "Previous conversation:" ++ Py.nl
             ++ history_text history ++ Py.nl)]
   else [])
  (* 2: ordered file context *)
  ++ (if nonempty ordered_context then
        [PText (Py.lit "File upload order (earliest first):" ++ Py.nl
                ++ ordered_context ++ Py.nl
                ++ Py.lit "Please refer to files in this order when answering."
                ++ Py.nl)]
      else [])
  (* 3: CSV context *)
  ++ (if nonempty csvs then [PText (Py.join Py.nl (csv_context csvs))]
      else [])
  (* 4: document context *)
  ++ (if nonempty documents then [PText (Py.join Py.nl (doc_context documents))]
      else [])
  (* 5: images *)
  ++ (if nonempty images then image_loop images ++ images_note images
      else [])
  (* 6: the user message *)
  ++ [PText (Py.nl ++ Py.lit "User question: " ++ message)].

(** The completion call: the text of the response, or the exception. *)
Inductive completion :=
| Completed (text : str)
| Raised (exc : str).

Variable generate_content : list Part -> completion.

(** [chat], gemini_service.py:20-144, and [chat_with_session],
    gemini_service.py:146-161. *)
Definition chat_with_session (message : str) (history : list Message)
    (session_data : SessionData) (ordered_files : list FileDesc)
    (ordered_context : str) : completion :=
  generate_content
    (context_parts message history (sd_images session_data)
       (sd_csvs session_data) (sd_documents session_data) ordered_context).

End Assembly.
Arguments PText {PILImage} s.
Arguments PImage {PILImage} img.


(** ** Chat endpoint, [api/v1/endpoints/chat.py:17-117] *)

Record ChatMetadata := {
  total_files : nat;
  images_used : nat;
  csvs_used : nat;
  documents_used : nat;
  file_order : list str
}.

Record ChatResponse := {
  cr_response : str;
  cr_session_id : str;
  cr_metadata : ChatMetadata
}.

(** The three readings of [time.time()] during one request. *)
Record Clock := {
  t_user : Z;        (* timestamp of the user message *)
  t_assistant : Z;   (* timestamp of the assistant message *)
  t_activity : Z     (* the new [last_activity] *)
}.

(** [request.app.state.sessions.get(session_id, {...})]: the default is a
    fresh dictionary that is not stored. *)
Definition session_data_of (session_id : str) (st : AppState) : SessionData :=
  match sessions st !! session_id with
  | Some sess =>
      {| sd_images := images sess; sd_csvs := csvs sess;
         sd_documents := documents sess |}
  | None => {| sd_images := []; sd_csvs := []; sd_documents := [] |}
  end.

(** [if session_id in sessions: sessions[session_id]["last_activity"] = t] *)
Definition touch (session_id : str) (t : Z) (ss : gmap str Session)
  : gmap str Session :=
  match ss !! session_id with
  | Some sess => <[session_id := set_last_activity t sess]> ss
  | None => ss
  end.

Section ChatEndpoint.

Variable PILImage : Type.
Variable Image_open : str -> option PILImage.
Variable generate_content : list (Part PILImage) -> completion.

(** [chat].  The user message is appended to the list held in
    [chat_history] before the [try], so it stays there when the completion
    raises. *)
Definition chat (clock : Clock) (session_id user_message : str)
    (st : AppState) : AppState * http_result ChatResponse :=
  let history := default [] (chat_history st !! session_id) in
  let session_data := session_data_of session_id st in
  let images_count := length (sd_images session_data) in
  let csvs_count := length (sd_csvs session_data) in
  let documents_count := length (sd_documents session_data) in
  let history :=
    history ++ [{| role := user; content := user_message;
                   timestamp := t_user clock;
                   context := Some {| images_count := images_count;
                                      csvs_count := csvs_count;
                                      documents_count := documents_count |} |}] in
  let files := all_files session_data in
  match chat_with_session PILImage Image_open generate_content
          user_message (Py.slice_from (-10) history) session_data files
          (ordered_context session_data) with
  | Completed response =>
      let history :=
        history ++ [{| role := assistant; content := response;
                       timestamp := t_assistant clock; context := None |}] in
      ({| sessions := touch session_id (t_activity clock) (sessions st);
          chat_history := <[session_id := history]> (chat_history st) |},
       Returned
         {| cr_response := response; cr_session_id := session_id;
            cr_metadata :=
              {| total_files := length files;
                 images_used := images_count;
                 csvs_used := csvs_count;
                 documents_used := documents_count;
                 file_order := map fd_filename files |} |})
  | Raised e =>
      ({| sessions := sessions st;
          chat_history := <[session_id := history]> (chat_history st) |},
       HTTPException 500 e)
  end.

End ChatEndpoint.


(** ** Text splitter, [utils/text_splitter.py] *)

Module Splitter.

(** [s.partition(sep)] when [sep] occurs in [s]: the text before the first
    occurrence and the text after it. *)
Fixpoint partition (sep s : str) : option (str * str) :=
  if Py.startswith sep s then Some ([], drop (length sep) s)
  else match s with
       | [] => None
       | c :: s' =>
           match partition sep s' with
           | Some (before, after) => Some (c :: before, after)
           | None => None
           end
       end.

Fixpoint split_fuel (fuel : nat) (sep s : str) : list str :=
  match fuel with
  | 0 => [s]
  | S fuel =>
      match partition sep s with
      | Some (before, after) => before :: split_fuel fuel sep after
      | None => [s]
      end
  end.

(** [s.split(sep)] for a non-empty [sep] (Python raises [ValueError] on an
    empty one).  Every cut removes at least one character, so [length s]
    rounds are enough. *)
Definition split (sep s : str) : list str := split_fuel (length s) sep s.

(** [re.split(r'(?<=[.!?])\s+', s)]: a cut is a maximal run of whitespace
    that starts right after one of [.], [!], [?]. *)
Definition ends_sentence (c : ascii) : bool :=
  Ascii.eqb c "." || Ascii.eqb c "!" || Ascii.eqb c "?".

Inductive scan := Text (after_punct : bool) | Cut.

Fixpoint sentences_go (mode : scan) (cur : str) (s : str) : list str :=
  match s with
  | [] => [rev cur]
  | c :: s' =>
      match mode with
      | Cut =>
          if Py.isspace c then sentences_go Cut cur s'
          else sentences_go (Text (ends_sentence c)) (c :: cur) s'
      | Text after_punct =>
          if after_punct && Py.isspace c
          then rev cur :: sentences_go Cut [] s'
          else sentences_go (Text (ends_sentence c)) (c :: cur) s'
      end
  end.

Definition sentences (s : str) : list str := sentences_go (Text false) [] s.

Record TextSplitter := {
  chunk_size : Z;
  chunk_overlap : Z;
  separator : str
}.

Section Split.
Variable self : TextSplitter.

(** The loop state: the chunks emitted so far and the running chunk. *)
Definition acc : Type := list str * str.

(** The inner loop over sentences, text_splitter.py:51-57. *)
Definition sentence_step (a : acc) (sentence : str) : acc :=
  let '(chunks, current_chunk) := a in
  if (Py.len current_chunk + Py.len sentence >? chunk_size self)%Z then
    if nonempty current_chunk
    then (chunks ++ [Py.strip current_chunk], sentence)
    else (chunks, current_chunk)
  else (chunks, current_chunk ++ Py.lit " " ++ sentence).

(** One round of the loop of [TextSplitter.split_text],
    text_splitter.py:39-61. *)
Definition text_step (a : acc) (split : str) : acc :=
  let '(chunks, current_chunk) := a in
  if (Py.len current_chunk + Py.len split >? chunk_size self)%Z then
    let '(chunks, current_chunk) :=
      if nonempty current_chunk then
        (chunks ++ [Py.strip current_chunk],
         if (chunk_overlap self >? 0)%Z
         then Py.slice_from (- chunk_overlap self) current_chunk
         else [])
      else (chunks, current_chunk) in
    if (Py.len split >? chunk_size self)%Z
    then foldl sentence_step (chunks, current_chunk) (sentences split)
    else (chunks, split)
  else (chunks, current_chunk ++ separator self ++ split).

(** [TextSplitter.split_text], text_splitter.py:22-67; [None] is the
    [ValueError] of [text.split] on an empty separator. *)
Definition split_text (text : str) : option (list str) :=
  if nonempty (separator self) then
    let '(chunks, current_chunk) :=
      foldl text_step ([], []) (split (separator self) text) in
    let chunks :=
      if nonempty current_chunk then chunks ++ [Py.strip current_chunk]
      else chunks in
    Some (List.filter nonempty chunks)
  else None.

(** One round of the loop of [_split_recursive], text_splitter.py:97-118;
    [recurse] is the call on the remaining separators. *)
Definition recursive_step (separator : str) (recurse : str -> list str)
    (a : acc) (split : str) : acc :=
  let '(chunks, current_chunk) := a in
  if (Py.len current_chunk + Py.len split + Py.len separator
      >? chunk_size self)%Z then
    if nonempty current_chunk then
      let chunks := chunks ++ [Py.strip current_chunk] in
      if (chunk_overlap self >? 0)%Z then
        let overlap_text := Py.slice_from (- chunk_overlap self) current_chunk in
        (chunks, overlap_text ++ separator ++ split)
      else (chunks, split)
    else
      if (Py.len split >? chunk_size self)%Z
      then (chunks ++ recurse split, current_chunk)
      else (chunks, split)
  else
    if nonempty current_chunk
    then (chunks, current_chunk ++ separator ++ split)
    else (chunks, split).

(** [RecursiveTextSplitter._split_recursive], text_splitter.py:85-123. *)
Fixpoint _split_recursive (separators : list str) (text : str) : list str :=
  match separators with
  | [] => if nonempty text then [text] else []
  | separator :: remaining_separators =>
      if (Py.len text <=? chunk_size self)%Z then
        if nonempty text then [text] else []
      else
        let '(chunks, current_chunk) :=
          foldl (recursive_step separator
                   (_split_recursive remaining_separators))
                ([], []) (split separator text) in
        if nonempty current_chunk then chunks ++ [Py.strip current_chunk]
        else chunks
  end.

End Split.

(** [RecursiveTextSplitter.__init__]: paragraphs, lines, sentences, words. *)
Definition separators : list str :=
  [Py.nl ++ Py.nl; Py.nl; Py.lit ". "; Py.lit " "].

Definition RecursiveTextSplitter (chunk_size chunk_overlap : Z) : TextSplitter :=
  {| chunk_size := chunk_size; chunk_overlap := chunk_overlap;
     separator := Py.nl ++ Py.nl |}.

(** [RecursiveTextSplitter.split_text], text_splitter.py:81-83. *)
Definition recursive_split_text (self : TextSplitter) (text : str) : list str :=
  _split_recursive self separators text.

End Splitter.


(** ** Upload endpoints: the store update
    [upload_image.py:77-94], [upload_csv.py:57-75], [upload_doc.py:64-84].
    Validation and parsing happen before; when they raise, the handler
    raises without touching the store. *)

(** The readings of [time.time()] during one upload. *)
Record UploadClock := {
  u_created : Z;      (* [created_at] of a new session *)
  u_first : Z;        (* [last_activity] of a new session *)
  u_uploaded : Z;     (* [uploaded_at] of the artifact *)
  u_activity : Z      (* the final [last_activity] *)
}.

(** The session the upload works on: the stored one, or a new one with
    three empty mappings ([setdefault], or the [if session_id not in]). *)
Definition session_or_new (clock : UploadClock) (session_id : str)
    (st : AppState) : Session :=
  match sessions st !! session_id with
  | Some sess => sess
  | None =>
      {| images := []; csvs := []; documents := [];
         created_at := u_created clock; last_activity := u_first clock |}
  end.

Definition upload_image (clock : UploadClock) (session_id file_id : str)
    (path : str) (resized_path : option str) (filename : str)
    (st : AppState) : AppState :=
  let session := session_or_new clock session_id st in
  let info := {| img_path := path; img_resized_path := resized_path;
                 img_filename := filename;
                 img_uploaded_at := u_uploaded clock |} in
  let session := set_images (Dict.setitem file_id info (images session)) session in
  let session := set_last_activity (u_activity clock) session in
  {| sessions := <[session_id := session]> (sessions st);
     chat_history := chat_history st |}.

Definition upload_csv (clock : UploadClock) (session_id file_id : str)
    (path : option str) (filename : str) (df : DataFrame)
    (st : AppState) : AppState :=
  let session := session_or_new clock session_id st in
  let info := {| csv_path := path; csv_filename := filename; csv_df := df;
                 csv_uploaded_at := u_uploaded clock |} in
  let session := set_csvs (Dict.setitem file_id info (csvs session)) session in
  let session := set_last_activity (u_activity clock) session in
  {| sessions := <[session_id := session]> (sessions st);
     chat_history := chat_history st |}.

Definition upload_document (clock : UploadClock) (session_id file_id : str)
    (path filename text : str) (st : AppState) : AppState :=
  let session := session_or_new clock session_id st in
  let info := {| doc_path := path; doc_filename := filename;
                 doc_text := text; doc_uploaded_at := u_uploaded clock |} in
  let session :=
    set_documents (Dict.setitem file_id info (documents session)) session in
  let session := set_last_activity (u_activity clock) session in
  {| sessions := <[session_id := session]> (sessions st);
     chat_history := chat_history st |}.

(** ** The truncation policy, in the words of the design *)

(** Documents that are included whole: header and text cut to the
    per-document cap. *)
Definition included_whole (items : list (str * DocInfo)) : list str :=
  flat_map (fun '(file_id, doc_info) =>
              [doc_header file_id doc_info; truncate_doc (doc_text doc_info)])
           items.

(** The characters these documents count for in the global budget. *)
Definition counted_chars (items : list (str * DocInfo)) : Z :=
  foldr (fun '(_, doc_info) n =>
           (Py.len (truncate_doc (doc_text doc_info)) + n)%Z) 0%Z items.

(** The document that does not fit any more, when [total] characters are
    counted already: a part of it if more than 1000 characters are left. *)
Definition included_partial (total : Z) (item : str * DocInfo) : list str :=
  let remaining := (max_total_chars - total)%Z in
  if (remaining >? 1000)%Z then
    [doc_header item.1 item.2;
     take (Z.to_nat remaining) (truncate_doc (doc_text item.2))
     ++ remaining_truncated_marker]
  else [].

(** [item] does not fit after [total] counted characters. *)
Definition overflows (total : Z) (item : str * DocInfo) : Prop :=
  (total + Py.len (truncate_doc (doc_text item.2)) > max_total_chars)%Z.

(** ** Comparing a text with the chunks made of it *)

(** [erases P s t]: [t] is [s] with some characters removed, each of which
    satisfies [P]; the other characters are kept, in order. *)
Inductive erases (P : ascii -> bool) : str -> str -> Prop :=
| erases_nil : erases P [] []
| erases_keep c s t : erases P s t -> erases P (c :: s) (c :: t)
| erases_drop c s t : P c = true -> erases P s t -> erases P (c :: s) t.

(** [tiles P text chunks]: the chunks are consecutive pieces of the text,
    in order; what stands before the first chunk, between two chunks and
    after the last one is made of characters that satisfy [P]. *)
Inductive tiles (P : ascii -> bool) : str -> list str -> Prop :=
| tiles_end gap :
    Forall (fun c => P c = true) gap -> tiles P gap []
| tiles_chunk gap chunk rest chunks :
    Forall (fun c => P c = true) gap ->
    tiles P rest chunks ->
    tiles P (gap ++ chunk ++ rest) (chunk :: chunks).

(** The characters of the four separators: whitespace and the full stop. *)
Definition droppable (c : ascii) : bool :=
  Py.isspace c || Ascii.eqb c ".".

(** A text without its whitespace. *)
Definition without_space (s : str) : str :=
  List.filter (fun c => negb (Py.isspace c)) s.

(** The text made of a first piece and further pieces, each after a
    separator. *)
Definition after_each (sep : str) (pieces : list str) : str :=
  concat (map (fun p => sep ++ p) pieces).

(** The separator characters that occur in a text satisfy [P]. *)
Definition erasable_in (P : ascii -> bool) (seps : list str) (text : str)
  : Prop :=
  forall sep c, sep ∈ seps -> c ∈ sep -> c ∈ text -> P c = true.


(** ** Sample data *)

Definition lone_image : ImageInfo :=
  {| img_path := Py.lit "uploads/images/s_1_a.png"; img_resized_path := None;
     img_filename := Py.lit "a.png"; img_uploaded_at := 1 |}.

Definition one_image_session : Session :=
  {| images := [(Py.lit "1", lone_image)]; csvs := []; documents := [];
     created_at := 0; last_activity := 1 |}.

Definition one_image_state : AppState :=
  {| sessions := {[ Py.lit "s" := one_image_session ]};
     chat_history := {[ Py.lit "s" := [] ]} |}.

Definition note_doc : DocInfo :=
  {| doc_path := Py.lit "uploads/documents/s_2_n.txt";
     doc_filename := Py.lit "n.txt"; doc_text := Py.lit "notes";
     doc_uploaded_at := 2 |}.

Definition image_and_doc_session : Session :=
  {| images := [(Py.lit "1", lone_image)]; csvs := [];
     documents := [(Py.lit "2", note_doc)];
     created_at := 0; last_activity := 2 |}.

Definition hello_message : Message :=
  {| role := user; content := Py.lit "hello"; timestamp := 3;
     context := None |}.

Definition image_and_doc_state : AppState :=
  {| sessions := {[ Py.lit "s" := image_and_doc_session ]};
     chat_history := {[ Py.lit "s" := [hello_message] ]} |}.

Definition three_messages : list Message :=
  [ {| role := user; content := Py.lit "q1"; timestamp := 1; context := None |};
    {| role := assistant; content := Py.lit "a1"; timestamp := 2; context := None |};
    {| role := user; content := Py.lit "q2"; timestamp := 3; context := None |} ].

Definition three_messages_state : AppState :=
  {| sessions := ∅; chat_history := {[ Py.lit "s" := three_messages ]} |}.

Definition empty_state : AppState := {| sessions := ∅; chat_history := ∅ |}.

Definition sample_clock : Clock := {| t_user := 10; t_assistant := 11; t_activity := 12 |}.

(** A completion that always answers, and an [Image.open] that always
    raises. *)
Definition answer_ok (parts : list (Part unit)) : completion :=
  Completed (Py.lit "ok").

Definition open_fails (path : str) : option unit := None.

Definition image_named (name : string) : ImageInfo :=
  {| img_path := Py.lit "uploads/images/" ++ Py.lit name;
     img_resized_path := None; img_filename := Py.lit name;
     img_uploaded_at := 1 |}.

(** [Image.open] that fails on one path only; a decoded image is
    represented by its path. *)
Definition open_except (bad : str) (path : str) : option str :=
  if decide (path = bad) then None else Some path.

Definition sample_image (name : string) (t : Z) : ImageInfo :=
  {| img_path := Py.lit "uploads/images/" ++ Py.lit name;
     img_resized_path := None; img_filename := Py.lit name;
     img_uploaded_at := t |}.

Definition sample_df : DataFrame :=
  {| df_rows := 2; df_cols := 1; df_columns := [Py.lit "x"];
     df_head_to_string := Py.lit "x"; df_describe_to_string := Py.lit "x" |}.

Definition sample_csv (name : string) (t : Z) : CsvInfo :=
  {| csv_path := Some (Py.lit "uploads/csv/" ++ Py.lit name);
     csv_filename := Py.lit name; csv_df := sample_df; csv_uploaded_at := t |}.

Definition sample_doc (name : string) (t : Z) : DocInfo :=
  {| doc_path := Py.lit "uploads/documents/" ++ Py.lit name;
     doc_filename := Py.lit name; doc_text := Py.lit "text";
     doc_uploaded_at := t |}.

(** Uploads at times 3, 0, 1, 2 over the three kinds, and the same files
    with the two images inserted in the other order. *)
Definition mixed_files : SessionData :=
  {| sd_images := [(Py.lit "i1", sample_image "late.png" 3);
                   (Py.lit "i2", sample_image "early.png" 0)];
     sd_csvs := [(Py.lit "c1", sample_csv "data.csv" 1)];
     sd_documents := [(Py.lit "d1", sample_doc "notes.txt" 2)] |}.

Definition mixed_files_swapped : SessionData :=
  {| sd_images := [(Py.lit "i2", sample_image "early.png" 0);
                   (Py.lit "i1", sample_image "late.png" 3)];
     sd_csvs := [(Py.lit "c1", sample_csv "data.csv" 1)];
     sd_documents := [(Py.lit "d1", sample_doc "notes.txt" 2)] |}.

(** Two images uploaded at the same time, under the ids [b] and [a], in
    the two possible insertion orders. *)
Definition tied_files : SessionData :=
  {| sd_images := [(Py.lit "b", sample_image "b.png" 5);
                   (Py.lit "a", sample_image "a.png" 5)];
     sd_csvs := []; sd_documents := [] |}.

Definition tied_files_swapped : SessionData :=
  {| sd_images := [(Py.lit "a", sample_image "a.png" 5);
                   (Py.lit "b", sample_image "b.png" 5)];
     sd_csvs := []; sd_documents := [] |}.

(** A document of [n] letters. *)
Definition long_doc (name : string) (n : nat) : DocInfo :=
  {| doc_path := Py.lit "uploads/documents/" ++ Py.lit name;
     doc_filename := Py.lit name;
     doc_text := replicate n "a"%char;
     doc_uploaded_at := 0 |}.

Definition three_long_docs : Dict.t DocInfo :=
  [(Py.lit "d1", long_doc "one.txt" (Z.to_nat 20000));
   (Py.lit "d2", long_doc "two.txt" (Z.to_nat 20000));
   (Py.lit "d3", long_doc "three.txt" (Z.to_nat 20000))].

(** Four documents that use 49000 characters and a fifth of 2000. *)
Definition docs_leaving_1000 : Dict.t DocInfo :=
  [(Py.lit "d1", long_doc "one.txt" (Z.to_nat 15000));
   (Py.lit "d2", long_doc "two.txt" (Z.to_nat 15000));
   (Py.lit "d3", long_doc "three.txt" (Z.to_nat 15000));
   (Py.lit "d4", long_doc "four.txt" (Z.to_nat 4000));
   (Py.lit "d5", long_doc "five.txt" (Z.to_nat 2000))].

(** Inputs of the splitter examples. *)
Definition two_sentences : str := Py.lit "aaaa. bbbb".

Definition two_paragraphs : str :=
  Py.lit "ab" ++ Py.nl ++ Py.nl ++ Py.lit "cccccc dddddd".


(** ** The other endpoints of [api/v1/endpoints/chat.py] *)

Record ClearResponse := {
  ch_status : str;
  ch_messages_deleted : nat
}.

(** [clear_chat_history], chat.py:120-130. *)
Definition clear_chat_history (session_id : str) (st : AppState)
  : AppState * ClearResponse :=
  match chat_history st !! session_id with
  | Some history =>
      let message_count := length history in
      ({| sessions := sessions st;
          chat_history := delete session_id (chat_history st) |},
       {| ch_status := Py.lit "cleared";
          ch_messages_deleted := message_count |})
  | None =>
      (st, {| ch_status := Py.lit "not_found"; ch_messages_deleted := 0 |})
  end.

(** [get_full_chat_history], chat.py:253-264. *)
Definition get_full_chat_history (session_id : str) (st : AppState)
  : HistoryResponse :=
  match chat_history st !! session_id with
  | Some history =>
      {| hr_session_id := session_id;
         hr_total_messages := length history;
         hr_messages := history |}
  | None =>
      {| hr_session_id := session_id; hr_total_messages := 0;
         hr_messages := [] |}
  end.

Record DeleteSessionResponse := {
  ds_status : str;
  ds_session_id : str;
  ds_files_deleted : nat;
  ds_messages_deleted : nat
}.

Section DeleteSession.

Variable unlink : str -> bool.

(** One round of the image loop of [delete_session], chat.py:210-217: the
    resized file is unlinked inside the same [try], before the count. *)
Definition image_unlinked (image_info : ImageInfo) : nat :=
  if unlink (img_path image_info) then
    match img_resized_path image_info with
    | Some p => if nonempty p then unlinked unlink p else 1
    | None => 1
    end
  else 0.

(** [delete_session], chat.py:199-252. *)
Definition delete_session (session_id : str) (st : AppState)
  : AppState * http_result DeleteSessionResponse :=
  match sessions st !! session_id with
  | None => (st, HTTPException 404 (Py.lit "Session not found"))
  | Some session_data =>
      let deleted_files :=
        foldl (fun n '(_, image_info) => n + image_unlinked image_info)
              0 (Dict.items (images session_data)) in
      let deleted_files :=
        foldl (fun n '(_, csv_info) =>
                 match csv_path csv_info with
                 | Some p => n + unlinked unlink p
                 | None => n
                 end)
              deleted_files (Dict.items (csvs session_data)) in
      let deleted_files :=
        foldl (fun n '(_, doc_info) => n + unlinked unlink (doc_path doc_info))
              deleted_files (Dict.items (documents session_data)) in
      let messages_deleted :=
        match chat_history st !! session_id with
        | Some history => length history
        | None => 0
        end in
      ({| sessions := delete session_id (sessions st);
          chat_history := drop_history session_id (chat_history st) |},
       Returned {| ds_status := Py.lit "deleted";
                   ds_session_id := session_id;
                   ds_files_deleted := deleted_files;
                   ds_messages_deleted := messages_deleted |})
  end.

End DeleteSession.

(** ** Listing images, [upload_image.py:206-231] *)

(** An entry of the listing; the fields copied from the image metadata
    (format, dimensions, size) are left out. *)
Record ImageEntry := {
  ie_file_id : str;
  ie_filename : str;
  ie_uploaded_at : Z
}.

Record ImagesResponse := {
  ir_session_id : str;
  ir_count : nat;
  ir_images : list ImageEntry
}.

(** [sorted(images.items(), key=lambda x: x[1].get("uploaded_at", 0))] *)
Definition sorted_images (images : Dict.t ImageInfo)
  : list (str * ImageInfo) :=
  sort_by (fun x => img_uploaded_at x.2) (Dict.items images).

(** [list_images] *)
Definition list_images (session_id : str) (st : AppState) : ImagesResponse :=
  match sessions st !! session_id with
  | Some sess =>
      let sorted_images := sorted_images (images sess) in
      {| ir_session_id := session_id;
         ir_count := length sorted_images;
         ir_images :=
           map (fun '(file_id, info) =>
                  {| ie_file_id := file_id; ie_filename := img_filename info;
                     ie_uploaded_at := img_uploaded_at info |})
               sorted_images |}
  | None =>
      {| ir_session_id := session_id; ir_count := 0; ir_images := [] |}
  end.

(** ** Loading a CSV from a URL, [upload_csv.py:97-151] *)

(** [url.split("/")[-1] or f"csv_{file_id}.csv"] *)
Definition url_filename (url file_id : str) : str :=
  let segment := List.last (Splitter.split (Py.lit "/") url) [] in
  if nonempty segment then segment
  else Py.lit "csv_" ++ file_id ++ Py.lit ".csv".

(** [upload_csv_url], the store update: the record has no ["path"] key. *)
Definition upload_csv_url (clock : UploadClock) (session_id file_id : str)
    (url : str) (df : DataFrame) (st : AppState) : AppState :=
  upload_csv clock session_id file_id None (url_filename url file_id) df st.

(** ** Request validation, [models/schemas.py] *)

Inductive validated (A : Type) :=
| Valid (v : A)
| ValueError (msg : str).
Arguments Valid {A} v.
Arguments ValueError {A} msg.

(** [ChatRequest.validate_message], schemas.py:51-56. *)
Definition validate_message (v : str) : validated str :=
  if nonempty (Py.strip v) then Valid (Py.strip v)
  else ValueError (Py.lit "Message cannot be empty").

(** ** Allowed origins, [core/config/settings.py:22-25] *)

(** [CORS_ORIGINS] for the value of the environment variable. *)
Definition cors_origins (value : str) : list str :=
  let origins :=
    List.filter nonempty
      (map Py.strip (Splitter.split (Py.lit ",") value)) in
  if nonempty origins then origins else [Py.lit "*"].


(** ** Vocabulary for the chat endpoint *)

(** The message [chat] records for the user. *)
Definition user_turn (clock : Clock) (msg : str) (sd : SessionData)
  : Message :=
  {| role := user; content := msg; timestamp := t_user clock;
     context := Some {| images_count := length (sd_images sd);
                        csvs_count := length (sd_csvs sd);
                        documents_count := length (sd_documents sd) |} |}.

(** What a chat call may not change in a session. *)
Definition files_of (s : Session) :=
  (images s, csvs s, documents s, created_at s).

(** The answer to a chat call on the session with one image and one
    document, when the completion says [ok]. *)
Definition two_files_answer : ChatResponse :=
  {| cr_response := Py.lit "ok"; cr_session_id := Py.lit "s";
     cr_metadata := {| total_files := 2; images_used := 1; csvs_used := 0;
                       documents_used := 1;
                       file_order := [Py.lit "a.png"; Py.lit "n.txt"] |} |}.


(** ** Vocabulary for the deletion handlers *)

(** A session with one of its mappings emptied. *)
Definition clear_kind (k : Kind) (s : Session) : Session :=
  match k with
  | Images => set_images [] s
  | Csvs => set_csvs [] s
  | Documents => set_documents [] s
  end.

(** The artifacts of a kind whose file is on disk: every image and
    document, and the CSVs that were uploaded rather than loaded from a
    URL. *)
Definition with_path (k : Kind) (s : Session) : nat :=
  match k with
  | Images => length (images s)
  | Csvs => length (List.filter (fun c => bool_decide (csv_path c.2 <> None))
                                (csvs s))
  | Documents => length (documents s)
  end.

(** The ids of every mapping of every session are pairwise distinct, as
    the keys of a Python [dict] are. *)
Definition store_wf (st : AppState) : Prop :=
  forall sid sess,
    sessions st !! sid = Some sess ->
    Dict.wf (images sess) /\ Dict.wf (csvs sess) /\ Dict.wf (documents sess).

(** The text entries of [doc_context]: after the title, headers and texts
    alternate. *)
Fixpoint texts_of (entries : list str) : list str :=
  match entries with
  | _ :: text :: rest => text :: texts_of rest
  | _ => []
  end.

(** The number of characters of a list of texts. *)
Definition total_len (texts : list str) : Z :=
  foldr (fun t n => (Py.len t + n)%Z) 0%Z texts.

(** The requests admitted among the answers of [dispatch_all]. *)
Definition admitted_count (answers : list bool) : nat :=
  length (List.filter id answers).


(** Chunks that [strip] leaves as they are. *)
Definition all_stripped (chunks : list str) : Prop :=
  Forall (fun c => Py.strip c = c) chunks.

(** The entries of a prompt that are images. *)
Definition image_parts {PILImage : Type} (parts : list (Part PILImage))
  : list PILImage :=
  flat_map (fun p => match p with PImage img => [img] | PText _ => [] end)
           parts.

(** The images of a mapping that [Image.open] can load, in order. *)
Definition loadable {PILImage : Type} (Image_open : str -> option PILImage)
    (images : Dict.t ImageInfo) : list PILImage :=
  flat_map (fun x => match Image_open (image_path x.2) with
                     | Some img => [img]
                     | None => []
                     end)
           images.


(** * Properties *)

(** ** Dictionaries *)

Lemma delitem_length {V} (k : str) (d : Dict.t V) :
  Dict.mem k d = true -> S (length (Dict.delitem k d)) = length d.
Proof.
  unfold Dict.mem. induction d as [|[k' v] d IH]; simpl; [discriminate|].
  destruct (decide (k = k')); [reflexivity|].
  intros H. simpl. f_equal. apply IH, H.
Qed.

Lemma is_empty_length {V} (d : Dict.t V) :
  Dict.is_empty d = true <-> length d = 0.
Proof. destruct d; simpl; split; congruence. Qed.

Lemma no_files_remain_count (sess : Session) :
  no_files_remain sess = true <-> artifact_count sess = 0.
Proof.
  unfold no_files_remain, artifact_count.
  rewrite !andb_true_iff, !is_empty_length. lia.
Qed.

Lemma drop_history_lookup (sid : str) (h : gmap str (list Message)) :
  drop_history sid h !! sid = None.
Proof.
  unfold drop_history. destruct (h !! sid) eqn:E; [apply lookup_delete_eq|exact E].
Qed.

Lemma drop_history_other (sid sid' : str) (h : gmap str (list Message)) :
  sid' <> sid -> drop_history sid h !! sid' = h !! sid'.
Proof.
  intros Hne. unfold drop_history.
  destruct (h !! sid); [apply lookup_delete_ne; congruence|reflexivity].
Qed.

(** ** Cascade of the single-artifact handlers *)

(** C1.  Deleting one artifact of any kind from a session succeeds and
    removes exactly that artifact.  The history of the session is cleared
    when, after the deletion, no artifact of any of the three kinds is left
    (the histories of other sessions stay); when at least one artifact
    remains, the whole history store is unchanged. *)
Theorem delete_single_cascade (k : Kind) (st : AppState) (sid fid : str)
    (sess : Session) :
  sessions st !! sid = Some sess ->
  has_artifact k fid sess = true ->
  exists sess',
    sessions (delete_single k sid fid st).1 !! sid = Some sess'
    /\ (delete_single k sid fid st).2
       = Returned {| sd_status := Py.lit "deleted"; sd_file_id := fid |}
    /\ S (artifact_count sess') = artifact_count sess
    /\ (artifact_count sess' = 0 ->
        chat_history (delete_single k sid fid st).1 !! sid = None
        /\ forall sid', sid' <> sid ->
             chat_history (delete_single k sid fid st).1 !! sid'
             = chat_history st !! sid')
    /\ (artifact_count sess' <> 0 ->
        chat_history (delete_single k sid fid st).1 = chat_history st).
Proof.
  intros Hs Hin.
  destruct k; simpl in Hin |- *;
    unfold delete_single_image, delete_single_csv, delete_single_document;
    rewrite Hs, Hin; simpl;
    eexists; (split; [apply lookup_insert_eq|]);
    (split; [reflexivity|]);
    (split; [unfold artifact_count; simpl;
             pose proof (delitem_length _ _ Hin); lia|]);
    (split; [intros H0; apply no_files_remain_count in H0; rewrite H0;
             split; [apply drop_history_lookup
                    |intros; apply drop_history_other; assumption]
            |intros H0;
             destruct (no_files_remain _) eqn:E;
             [apply no_files_remain_count in E; contradiction|reflexivity]]).
Qed.

Lemma delete_single_cascade_witness :
  exists sess',
    sessions (delete_single Images (Py.lit "s") (Py.lit "1") one_image_state).1
      !! Py.lit "s" = Some sess'
    /\ artifact_count sess' = 0
    /\ chat_history (delete_single Images (Py.lit "s") (Py.lit "1") one_image_state).1
         !! Py.lit "s" = None.
Proof.
  destruct (delete_single_cascade Images one_image_state (Py.lit "s") (Py.lit "1")
              one_image_session) as (sess' & H1 & _ & H3 & H4 & _).
  - apply lookup_singleton_eq.
  - reflexivity.
  - exists sess'. split; [exact H1|].
    assert (artifact_count sess' = 0) as H0
      by (change (artifact_count one_image_session) with 1 in H3; lia).
    split; [exact H0|]. apply H4, H0.
Defined.

(** ** Bulk deletion *)

(** C9.  On an existing session each of the three bulk handlers answers
    with status [deleted] and [history_cleared = True], whatever the
    session holds; when artifacts of another kind remain, the history store
    is left exactly as it was, so the flag is set although nothing was
    cleared. *)
Theorem delete_all_reports_history_cleared (unlink : str -> bool) (k : Kind)
    (st : AppState) (sid : str) (sess : Session) :
  sessions st !! sid = Some sess ->
  bd_status (delete_all unlink k sid st).2 = Py.lit "deleted"
  /\ bd_history_cleared (delete_all unlink k sid st).2 = Some true
  /\ (artifact_count sess <> kind_count k sess ->
      chat_history (delete_all unlink k sid st).1 = chat_history st).
Proof.
  intros Hs.
  destruct k; simpl;
    unfold delete_all_images, delete_all_csvs, delete_all_documents;
    rewrite Hs; simpl; (split; [reflexivity|]); (split; [reflexivity|]);
    unfold artifact_count; intros Hrem;
    match goal with
    | |- (if ?a && ?b then _ else _) = _ =>
        destruct a eqn:Ea; destruct b eqn:Eb; simpl; try reflexivity;
        apply is_empty_length in Ea, Eb; lia
    end.
Qed.

Lemma delete_all_reports_history_cleared_witness :
  bd_history_cleared
    (delete_all (fun _ => true) Images (Py.lit "s") image_and_doc_state).2 = Some true
  /\ chat_history (delete_all (fun _ => true) Images (Py.lit "s") image_and_doc_state).1
       !! Py.lit "s" = Some [hello_message].
Proof.
  destruct (delete_all_reports_history_cleared (fun _ => true) Images image_and_doc_state
              (Py.lit "s") image_and_doc_session) as (_ & H2 & H3).
  - apply lookup_singleton_eq.
  - split; [exact H2|]. rewrite H3.
    + apply lookup_singleton_eq.
    + unfold artifact_count, kind_count. simpl. lia.
Defined.

(** ** History read endpoint *)

Lemma slice_from_last {A} (n : Z) (l : list A) :
  (0 < n)%Z -> Py.slice_from (- n) l = drop (length l - Z.to_nat n) l.
Proof.
  intros Hn. unfold Py.slice_from.
  destruct (0 <=? - n)%Z eqn:E; [lia|].
  rewrite Z.opp_involutive. reflexivity.
Qed.

(** C10.  For a session that has a history, [limit = 0] returns every
    message; a positive [limit] returns the last [limit] messages in their
    order (a suffix of the history of length [min limit len]), hence all of
    them when fewer than [limit] exist. *)
Theorem get_chat_history_limit (st : AppState) (sid : str)
    (history : list Message) (limit : Z) :
  chat_history st !! sid = Some history ->
  hr_total_messages (get_chat_history sid limit st) = length history
  /\ (limit = 0%Z -> hr_messages (get_chat_history sid limit st) = history)
  /\ ((0 < limit)%Z ->
      hr_messages (get_chat_history sid limit st)
      = drop (length history - Z.to_nat limit) history
      /\ length (hr_messages (get_chat_history sid limit st))
         = Nat.min (Z.to_nat limit) (length history)
      /\ hr_messages (get_chat_history sid limit st) `suffix_of` history
      /\ ((Py.len history <= limit)%Z ->
          hr_messages (get_chat_history sid limit st) = history)).
Proof.
  intros Hh. unfold get_chat_history. rewrite Hh. simpl.
  split; [reflexivity|]. split.
  - intros ->. reflexivity.
  - intros Hpos. destruct (limit =? 0)%Z eqn:E; [lia|].
    rewrite slice_from_last by assumption.
    split; [reflexivity|]. split; [rewrite length_drop; lia|].
    split; [apply suffix_drop|].
    unfold Py.len. intros Hle.
    replace (length history - Z.to_nat limit) with 0 by lia. reflexivity.
Qed.

Lemma get_chat_history_limit_witness :
  hr_messages (get_chat_history (Py.lit "s") 0 three_messages_state) = three_messages
  /\ hr_messages (get_chat_history (Py.lit "s") 2 three_messages_state)
     = drop 1 three_messages.
Proof.
  destruct (get_chat_history_limit three_messages_state (Py.lit "s") three_messages 0)
    as (_ & H0 & _); [apply lookup_singleton_eq|].
  destruct (get_chat_history_limit three_messages_state (Py.lit "s") three_messages 2)
    as (_ & _ & H2); [apply lookup_singleton_eq|].
  split; [apply H0; reflexivity|].
  destruct H2 as (H2 & _); [lia|]. exact H2.
Defined.

(** ** Rate limiter *)

Lemma recorded_set_requests (ip : str) (l : list Z) (rl : RateLimiter) :
  recorded ip (set_requests ip l rl) = l.
Proof. unfold recorded, set_requests. simpl. rewrite lookup_insert_eq. reflexivity. Qed.

Lemma recorded_set_requests_ne (ip ip' : str) (l : list Z) (rl : RateLimiter) :
  ip <> ip' -> recorded ip' (set_requests ip l rl) = recorded ip' rl.
Proof.
  intros Hne. unfold recorded, set_requests. simpl.
  rewrite lookup_insert_ne by assumption. reflexivity.
Qed.

Lemma window_filter (now : Z) (l : list Z) :
  filter (fun t => (now - t < 60)%Z) l = window now l.
Proof.
  unfold window. apply list_filter_iff. intros t. lia.
Qed.

(** What one admission does to the limiter, in terms of the window. *)
Lemma dispatch_unfold (ip : str) (now : Z) (rl : RateLimiter) :
  dispatch ip now rl
  = let kept := window now (recorded ip rl) in
    if (Py.len kept >=? requests_per_minute rl)%Z then
      (set_requests ip kept rl,
       HTTPException 429
         (Py.lit "Rate limit exceeded. Max "
          ++ Py.str_of_Z (requests_per_minute rl)
          ++ Py.lit " requests per minute."))
    else
      (set_requests ip (kept ++ [now]) (set_requests ip kept rl),
       Returned (requests_per_minute rl - Py.len (kept ++ [now]))%Z).
Proof.
  unfold dispatch. rewrite window_filter. cbv zeta.
  rewrite !recorded_set_requests. reflexivity.
Qed.

Lemma dispatch_all_cons (ip : str) (now : Z) (times : list Z) (rl : RateLimiter) :
  (dispatch_all ip (now :: times) rl).2
  = admitted (dispatch ip now rl).2
    :: (dispatch_all ip times (dispatch ip now rl).1).2.
Proof.
  simpl. destruct (dispatch ip now rl) as [rl1 r]. simpl.
  destruct (dispatch_all ip times rl1) as [rl2 rs]. reflexivity.
Qed.

(** One admission, from the list recorded for the client. *)
Lemma dispatch_step (ip : str) (now : Z) (rl : RateLimiter) (l l' : list Z)
    (b : bool) :
  recorded ip rl = l ->
  (Py.len (window now l) >=? requests_per_minute rl)%Z = negb b ->
  l' = (if b then window now l ++ [now] else window now l) ->
  admitted (dispatch ip now rl).2 = b
  /\ recorded ip (dispatch ip now rl).1 = l'
  /\ requests_per_minute (dispatch ip now rl).1 = requests_per_minute rl.
Proof.
  intros Hl Hb ->. rewrite dispatch_unfold, Hl. cbv zeta. rewrite Hb.
  destruct b; simpl; rewrite recorded_set_requests; auto.
Qed.

Lemma dispatch_scenario (ip : str) :
  (dispatch_all ip [0; 1; 2; 3; 61]%Z limiter3).2
  = [true; true; true; false; true].
Proof.
  set (rl1 := (dispatch ip 0 limiter3).1).
  set (rl2 := (dispatch ip 1 rl1).1).
  set (rl3 := (dispatch ip 2 rl2).1).
  set (rl4 := (dispatch ip 3 rl3).1).
  destruct (dispatch_step ip 0 limiter3 [] [0%Z] true) as (A1 & R1 & L1);
    [reflexivity | vm_compute; reflexivity | vm_compute; reflexivity |].
  fold rl1 in A1, R1, L1. change (requests_per_minute limiter3) with 3%Z in L1.
  destruct (dispatch_step ip 1 rl1 [0%Z] [0; 1]%Z true) as (A2 & R2 & L2);
    [exact R1 | rewrite L1; vm_compute; reflexivity
    | vm_compute; reflexivity |].
  fold rl2 in A2, R2, L2. rewrite L1 in L2.
  destruct (dispatch_step ip 2 rl2 [0; 1]%Z [0; 1; 2]%Z true)
    as (A3 & R3 & L3);
    [exact R2 | rewrite L2; vm_compute; reflexivity
    | vm_compute; reflexivity |].
  fold rl3 in A3, R3, L3. rewrite L2 in L3.
  destruct (dispatch_step ip 3 rl3 [0; 1; 2]%Z [0; 1; 2]%Z false)
    as (A4 & R4 & L4);
    [exact R3 | rewrite L3; vm_compute; reflexivity
    | vm_compute; reflexivity |].
  fold rl4 in A4, R4, L4. rewrite L3 in L4.
  destruct (dispatch_step ip 61 rl4 [0; 1; 2]%Z [2; 61]%Z true)
    as (A5 & R5 & L5);
    [exact R4 | rewrite L4; vm_compute; reflexivity
    | vm_compute; reflexivity |].
  rewrite !dispatch_all_cons.
  fold rl1. rewrite A1. fold rl2. rewrite A2. fold rl3. rewrite A3.
  fold rl4. rewrite A4, A5. reflexivity.
Qed.

(** C4.  One admission of a client at time [now]: the recorded timestamps
    [t] with [now - t >= 60] are purged; the request is rejected exactly
    when the number of remaining timestamps is at least the limit, and then
    nothing is appended; otherwise [now] is appended and the request is
    accepted.  Other clients and the limit are untouched.  With limit 3 and
    requests at 0, 1, 2, 3, 61 the answers are: admitted, admitted,
    admitted, rejected, admitted. *)
Theorem dispatch_admission (ip : str) (now : Z) (rl : RateLimiter) :
  let kept := window now (recorded ip rl) in
  let rl' := (dispatch ip now rl).1 in
  (admitted (dispatch ip now rl).2 = false
   <-> (Py.len kept >= requests_per_minute rl)%Z)
  /\ recorded ip rl'
     = (if admitted (dispatch ip now rl).2 then kept ++ [now] else kept)
  /\ (forall t, t ∈ kept <-> t ∈ recorded ip rl /\ ~ (now - t >= 60)%Z)
  /\ (forall ip', ip <> ip' -> recorded ip' rl' = recorded ip' rl)
  /\ requests_per_minute rl' = requests_per_minute rl
  /\ (dispatch_all ip [0; 1; 2; 3; 61]%Z limiter3).2
     = [true; true; true; false; true].
Proof.
  intros kept rl'. subst rl'. rewrite dispatch_unfold. fold kept. cbv zeta.
  assert (forall t, t ∈ kept <-> t ∈ recorded ip rl /\ ~ (now - t >= 60)%Z)
    as Hkept.
  { intros t. unfold kept, window. rewrite list_elem_of_filter. tauto. }
  destruct (Py.len kept >=? requests_per_minute rl)%Z eqn:E; simpl;
    rewrite recorded_set_requests.
  - split; [split; [lia|reflexivity]|].
    split; [reflexivity|]. split; [exact Hkept|].
    split; [intros ip' Hne; apply recorded_set_requests_ne, Hne|].
    split; [reflexivity|apply dispatch_scenario].
  - split; [split; [discriminate|lia]|].
    split; [reflexivity|]. split; [exact Hkept|].
    split; [intros ip' Hne; rewrite !recorded_set_requests_ne by assumption;
            reflexivity|].
    split; [reflexivity|apply dispatch_scenario].
Qed.

(** ** Lazy creation of sessions *)

Section ChatFacts.

Variable PILImage : Type.
Variable Image_open : str -> option PILImage.
Variable generate_content : list (Part PILImage) -> completion.

(** A chat call never adds or removes a session. *)
Lemma chat_sessions_dom (clock : Clock) (sid msg : str) (st : AppState)
    (sid' : str) :
  is_Some (sessions (chat PILImage Image_open generate_content clock sid msg st).1 !! sid')
  <-> is_Some (sessions st !! sid').
Proof.
  unfold chat. destruct (chat_with_session _ _ _ _ _ _ _ _); simpl; [|tauto].
  unfold touch. destruct (sessions st !! sid) eqn:E; [|tauto].
  destruct (decide (sid = sid')) as [->|Hne].
  - rewrite lookup_insert_eq, E. split; eauto.
  - rewrite lookup_insert_ne by assumption. tauto.
Qed.

(** C5 (as the code has it).  A chat call on a session id that is not in
    the session store leaves the session store as it is: no session is
    created and no [last_activity] is written.  What is created lazily is
    the conversation history of that id, which receives the user message
    and, when the completion succeeds, the reply.  For a stored session a
    successful chat call writes [last_activity] and nothing else of the
    session.  Sessions are created by the uploads: an upload on an unknown
    id stores a session with the three mappings, the new artifact in its
    own mapping and the two others empty. *)
Theorem chat_does_not_create_session (clock : Clock) (sid msg : str)
    (st : AppState) :
  let out := chat PILImage Image_open generate_content clock sid msg st in
  (sessions st !! sid = None ->
   sessions out.1 = sessions st
   /\ exists reply,
        chat_history out.1 !! sid
        = Some (default [] (chat_history st !! sid)
                ++ {| role := user; content := msg;
                      timestamp := t_user clock;
                      context := Some {| images_count := 0; csvs_count := 0;
                                         documents_count := 0 |} |}
                :: reply)
        /\ (forall r, out.2 = Returned r ->
            reply = [{| role := assistant; content := cr_response r;
                        timestamp := t_assistant clock; context := None |}])
        /\ (forall c d, out.2 = HTTPException c d ->
            reply = []))
  /\ (forall sess r,
        sessions st !! sid = Some sess ->
        out.2 = Returned r ->
        sessions out.1 !! sid
        = Some (set_last_activity (t_activity clock) sess))
  /\ (forall uclock fid path resized filename,
        sessions st !! sid = None ->
        sessions (upload_image uclock sid fid path resized filename st) !! sid
        = Some {| images := [(fid, {| img_path := path;
                                      img_resized_path := resized;
                                      img_filename := filename;
                                      img_uploaded_at := u_uploaded uclock |})];
                  csvs := []; documents := [];
                  created_at := u_created uclock;
                  last_activity := u_activity uclock |})
  /\ (forall uclock fid path filename df,
        sessions st !! sid = None ->
        sessions (upload_csv uclock sid fid path filename df st) !! sid
        = Some {| images := [];
                  csvs := [(fid, {| csv_path := path; csv_filename := filename;
                                    csv_df := df;
                                    csv_uploaded_at := u_uploaded uclock |})];
                  documents := [];
                  created_at := u_created uclock;
                  last_activity := u_activity uclock |})
  /\ (forall uclock fid path filename text,
        sessions st !! sid = None ->
        sessions (upload_document uclock sid fid path filename text st) !! sid
        = Some {| images := []; csvs := [];
                  documents := [(fid, {| doc_path := path;
                                         doc_filename := filename;
                                         doc_text := text;
                                         doc_uploaded_at := u_uploaded uclock |})];
                  created_at := u_created uclock;
                  last_activity := u_activity uclock |}).
Proof.
  intros out. subst out.
  split; [|split; [|split; [|split]]].
  - intros Hnone. unfold chat, session_data_of, touch. rewrite Hnone. simpl.
    destruct (chat_with_session _ _ _ _ _ _ _ _) as [response|e]; simpl.
    + split; [reflexivity|].
      exists [{| role := assistant; content := response;
                 timestamp := t_assistant clock; context := None |}].
      rewrite lookup_insert_eq, <- app_assoc. simpl.
      split; [reflexivity|]. split; [|discriminate].
      intros r [= <-]. reflexivity.
    + split; [reflexivity|]. exists [].
      rewrite lookup_insert_eq.
      split; [reflexivity|]. split; [discriminate|reflexivity].
  - intros sess r Hs. unfold chat, touch. rewrite Hs.
    destruct (chat_with_session _ _ _ _ _ _ _ _); simpl; [|discriminate].
    intros _. apply lookup_insert_eq.
  - intros uclock fid path resized filename Hnone.
    unfold upload_image, session_or_new. rewrite Hnone. simpl.
    apply lookup_insert_eq.
  - intros uclock fid path filename df Hnone.
    unfold upload_csv, session_or_new. rewrite Hnone. simpl.
    apply lookup_insert_eq.
  - intros uclock fid path filename text Hnone.
    unfold upload_document, session_or_new. rewrite Hnone. simpl.
    apply lookup_insert_eq.
Qed.

End ChatFacts.

(** C5, refuted as stated: after a chat call on an unknown session id the
    session is still not in the session store. *)
Lemma chat_unknown_session_not_created :
  sessions empty_state !! Py.lit "s" = None
  /\ admitted (chat unit open_fails answer_ok sample_clock (Py.lit "s")
                 (Py.lit "hi") empty_state).2 = true
  /\ sessions (chat unit open_fails answer_ok sample_clock (Py.lit "s")
                 (Py.lit "hi") empty_state).1 !! Py.lit "s" = None.
Proof.
  split; [apply lookup_empty|]. split; [reflexivity|].
  unfold chat, touch, empty_state. simpl. apply lookup_empty.
Qed.

Lemma chat_does_not_create_session_witness :
  sessions (chat unit open_fails answer_ok sample_clock (Py.lit "s") (Py.lit "hi")
              empty_state).1 = sessions empty_state.
Proof.
  apply (chat_does_not_create_session unit open_fails answer_ok sample_clock
           (Py.lit "s") (Py.lit "hi") empty_state).
  apply lookup_empty.
Defined.

(** ** Images that cannot be loaded *)

Section AssemblyFacts.

Variable PILImage : Type.
Variable Image_open : str -> option PILImage.

(** C8 (with the text the code writes).  Whatever precedes the images in
    the prompt does not depend on them.  When [Image.open] raises for an
    image, the entries of the images before it are kept, the single text
    entry [[Failed to load image: <filename>]] stands for it, the entries of
    the images after it follow (an image that loads gives the image and its
    caption), then the note on several images, and the user message is the
    last entry; the completion is called on exactly this list. *)
Theorem image_load_failure_placeholder (message : str)
    (history : list Message) (before after : Dict.t ImageInfo)
    (file_id : str) (image_info : ImageInfo) (csvs : Dict.t CsvInfo)
    (documents : Dict.t DocInfo) (ordered : str)
    (generate_content : list (Part PILImage) -> completion)
    (files : list FileDesc) :
  Image_open (image_path image_info) = None ->
  let images := before ++ (file_id, image_info) :: after in
  let question := PText (Py.nl ++ Py.lit "User question: " ++ message) in
  let parts := context_parts PILImage Image_open message history in
  exists pre,
    parts [] csvs documents ordered = pre ++ [question]
    /\ parts images csvs documents ordered
       = pre ++ image_loop PILImage Image_open before
         ++ [PText (Py.lit "[Failed to load image: "
                    ++ img_filename image_info ++ Py.lit "]")]
         ++ image_loop PILImage Image_open after
         ++ images_note PILImage images ++ [question]
    /\ (forall fid info img,
          Image_open (image_path info) = Some img ->
          image_entries PILImage Image_open fid info
          = [PImage img;
             PText (Py.lit "[Image: " ++ img_filename info
                    ++ Py.lit " (file_id: " ++ fid ++ Py.lit ")]")])
    /\ chat_with_session PILImage Image_open generate_content message history
         {| sd_images := images; sd_csvs := csvs; sd_documents := documents |}
         files ordered
       = generate_content (parts images csvs documents ordered).
Proof.
  intros Hfail images question parts. subst parts.
  unfold context_parts. fold question.
  eexists. split; [simpl; rewrite !app_assoc; reflexivity|].
  split; [|split; [|reflexivity]].
  - assert (nonempty images = true) as ->
      by (unfold images; destruct before; reflexivity).
    unfold image_loop, Dict.items. subst images. rewrite flat_map_app. simpl.
    unfold image_entries at 2. rewrite Hfail.
    simpl. rewrite <- !app_assoc. reflexivity.
  - intros fid info img Hok. unfold image_entries. rewrite Hok. reflexivity.
Qed.

End AssemblyFacts.

Lemma image_load_failure_placeholder_witness :
  context_parts str (open_except (Py.lit "uploads/images/b.png"))
    (Py.lit "hi") []
    [(Py.lit "1", image_named "a.png"); (Py.lit "2", image_named "b.png");
     (Py.lit "3", image_named "c.png")] [] [] []
  = [ PImage (Py.lit "uploads/images/a.png");
      PText (Py.lit "[Image: a.png (file_id: 1)]");
      PText (Py.lit "[Failed to load image: b.png]");
      PImage (Py.lit "uploads/images/c.png");
      PText (Py.lit "[Image: c.png (file_id: 3)]");
      PText (Py.nl ++ Py.lit "Note: 3 images have been uploaded. "
             ++ Py.lit "Please refer to them by filename when answering.");
      PText (Py.nl ++ Py.lit "User question: hi") ].
Proof.
  destruct (image_load_failure_placeholder str
              (open_except (Py.lit "uploads/images/b.png"))
              (Py.lit "hi") [] [(Py.lit "1", image_named "a.png")]
              [(Py.lit "3", image_named "c.png")] (Py.lit "2")
              (image_named "b.png") [] [] [] (fun _ => Completed []) [])
    as (pre & _ & H & _).
  - reflexivity.
  - reflexivity.
Defined.

(** C8, refuted for the text quoted in the claim: the entry that stands for
    an image that cannot be loaded starts with a capital letter; the
    lower-case entry is not in the prompt. *)
Lemma image_placeholder_text_differs :
  context_parts unit open_fails (Py.lit "hi") []
    [(Py.lit "1", image_named "a.png")] [] [] []
  = [ PText (Py.lit "[Failed to load image: a.png]");
      PText (Py.nl ++ Py.lit "User question: hi") ]
  /\ ~ In (PText (Py.lit "[failed to load image: a.png]"))
         (context_parts unit open_fails (Py.lit "hi") []
            [(Py.lit "1", image_named "a.png")] [] [] []).
Proof.
  split; [reflexivity|].
  intros [H|[H|[]]]; discriminate H.
Qed.

(** ** The stable sort *)

Section SortFacts.
Context {A : Type} (key : A -> Z).

Lemma insert_sorted_perm (x : A) (l : list A) :
  insert_sorted key x l ≡ₚ x :: l.
Proof.
  induction l as [|y l IH]; simpl; [reflexivity|].
  destruct (key x <=? key y)%Z; [reflexivity|].
  rewrite IH. apply Permutation_swap.
Qed.

Lemma sort_by_perm (l : list A) : sort_by key l ≡ₚ l.
Proof.
  induction l as [|x l IH]; simpl; [reflexivity|].
  rewrite insert_sorted_perm, IH. reflexivity.
Qed.

Lemma insert_sorted_ascending (x : A) (l : list A) :
  ascending key l -> ascending key (insert_sorted key x l).
Proof.
  unfold ascending. induction 1 as [|y l Hl IH Hy]; simpl.
  - repeat constructor.
  - destruct (key x <=? key y)%Z eqn:E.
    + constructor; [constructor; assumption|].
      constructor; [lia|].
      eapply Forall_impl; [exact Hy|]. simpl. intros z Hz. lia.
    + constructor; [exact IH|].
      rewrite insert_sorted_perm. constructor; [lia|exact Hy].
Qed.

Lemma sort_by_ascending (l : list A) : ascending key (sort_by key l).
Proof.
  induction l as [|x l IH]; simpl; [constructor|].
  apply insert_sorted_ascending, IH.
Qed.

(** Stability: the elements of any one key are in their original order. *)
Lemma insert_sorted_stable (v : Z) (x : A) (l : list A) :
  filter (fun a => key a = v) (insert_sorted key x l)
  = filter (fun a => key a = v) (x :: l).
Proof.
  induction l as [|y l IH]; simpl; [reflexivity|].
  destruct (key x <=? key y)%Z eqn:E; [reflexivity|].
  rewrite (filter_cons _ y), IH, !filter_cons.
  repeat case_decide; try reflexivity; lia.
Qed.

Lemma sort_by_stable (v : Z) (l : list A) :
  filter (fun a => key a = v) (sort_by key l)
  = filter (fun a => key a = v) l.
Proof.
  induction l as [|x l IH]; simpl; [reflexivity|].
  rewrite insert_sorted_stable, !filter_cons, IH. reflexivity.
Qed.

Lemma key_inj_on (l : list A) (x y : A) :
  NoDup (key <$> l) -> x ∈ l -> y ∈ l -> key x = key y -> x = y.
Proof.
  induction l as [|z l IH]; simpl; intros Hnd Hx Hy Hk.
  - inversion Hx.
  - apply NoDup_cons in Hnd as [Hz Hnd].
    apply elem_of_cons in Hx as [->|Hx]; apply elem_of_cons in Hy as [->|Hy].
    + reflexivity.
    + exfalso. apply Hz. rewrite Hk. apply list_elem_of_fmap_2, Hy.
    + exfalso. apply Hz. rewrite <- Hk. apply list_elem_of_fmap_2, Hx.
    + apply IH; assumption.
Qed.

(** With pairwise distinct keys the result depends on the elements only,
    not on the order in which they are given. *)
Lemma sort_by_order_independent (l1 l2 : list A) :
  l1 ≡ₚ l2 -> NoDup (key <$> l1) -> sort_by key l1 = sort_by key l2.
Proof.
  intros Hp Hnd.
  apply (StronglySorted_unique_strong (fun a b => (key a <= key b)%Z)).
  - intros x1 x2 H1 H2 Hle Hge.
    apply (key_inj_on l1); [assumption| | |lia].
    + rewrite <- (sort_by_perm l1). exact H1.
    + rewrite Hp, <- (sort_by_perm l2). exact H2.
  - apply sort_by_ascending.
  - apply sort_by_ascending.
  - rewrite !sort_by_perm. exact Hp.
Qed.

End SortFacts.

(** ** The rendered file index *)

Lemma collect_files_perm (sd sd' : SessionData) :
  sd_images sd ≡ₚ sd_images sd' ->
  sd_csvs sd ≡ₚ sd_csvs sd' ->
  sd_documents sd ≡ₚ sd_documents sd' ->
  collect_files sd ≡ₚ collect_files sd'.
Proof.
  intros Hi Hc Hd. unfold collect_files, Dict.items.
  rewrite Hi, Hc, Hd. reflexivity.
Qed.

(** C2 (as the code has it).  The index of a chat turn lists every artifact
    of the three kinds once, in ascending order of [uploaded_at]; artifacts
    with equal [uploaded_at] stay in the order in which they were collected
    (images, then CSVs, then documents, each mapping in insertion order);
    when all [uploaded_at] values differ, the index does not depend on the
    insertion order of the mappings; line [i] (from 1) of the index is
    [[i] KIND → filename]. *)
Theorem ordered_index_by_upload_time (sd : SessionData) :
  all_files sd ≡ₚ collect_files sd
  /\ length (all_files sd)
     = length (sd_images sd) + length (sd_csvs sd) + length (sd_documents sd)
  /\ ascending fd_uploaded_at (all_files sd)
  /\ (forall t,
        filter (fun f => fd_uploaded_at f = t) (all_files sd)
        = filter (fun f => fd_uploaded_at f = t) (collect_files sd))
  /\ (forall sd',
        sd_images sd ≡ₚ sd_images sd' ->
        sd_csvs sd ≡ₚ sd_csvs sd' ->
        sd_documents sd ≡ₚ sd_documents sd' ->
        NoDup (fd_uploaded_at <$> collect_files sd) ->
        all_files sd' = all_files sd
        /\ ordered_context sd' = ordered_context sd)
  /\ ordered_context sd = Py.join Py.nl (index_lines (all_files sd))
  /\ (forall i f,
        all_files sd !! i = Some f ->
        index_lines (all_files sd) !! i
        = Some (Py.lit "[" ++ Py.str_of_nat (i + 1) ++ Py.lit "] "
                ++ Py.upper (kind_name (fd_type f)) ++ Py.lit " → "
                ++ fd_filename f)).
Proof.
  unfold all_files.
  split; [apply sort_by_perm|].
  split.
  { rewrite sort_by_perm. unfold collect_files, Dict.items.
    rewrite !length_app, !length_map. lia. }
  split; [apply sort_by_ascending|].
  split; [intros t; apply sort_by_stable|].
  split.
  { intros sd' Hi Hc Hd Hnd.
    assert (sort_by fd_uploaded_at (collect_files sd')
            = sort_by fd_uploaded_at (collect_files sd)) as Heq.
    { symmetry. apply sort_by_order_independent; [|exact Hnd].
      apply collect_files_perm; assumption. }
    split; [exact Heq|]. unfold ordered_context, all_files.
    rewrite Heq. reflexivity. }
  split; [reflexivity|].
  intros i f Hf. unfold index_lines. rewrite list_lookup_imap, Hf.
  reflexivity.
Qed.

Lemma ordered_index_by_upload_time_witness :
  ordered_context mixed_files_swapped = ordered_context mixed_files
  /\ map fd_uploaded_at (all_files mixed_files) = [0; 1; 2; 3]%Z
  /\ map fd_type (all_files mixed_files) = [Images; Csvs; Documents; Images].
Proof.
  split; [|split; reflexivity].
  destruct (ordered_index_by_upload_time mixed_files)
    as (_ & _ & _ & _ & Hindep & _).
  apply (Hindep mixed_files_swapped).
  - apply Permutation_swap.
  - reflexivity.
  - reflexivity.
  - apply (bool_decide_unpack _). vm_compute. exact I.
Defined.

(** C2, refuted as stated: two images uploaded at the same time are listed
    in insertion order, the id [b] before the id [a], and inserting the
    same two images in the other order gives another index. *)
Lemma ordered_index_ties_follow_insertion :
  sd_images tied_files ≡ₚ sd_images tied_files_swapped
  /\ map fd_uploaded_at (all_files tied_files) = [5; 5]%Z
  /\ map fd_file_id (all_files tied_files) = [Py.lit "b"; Py.lit "a"]
  /\ map fd_file_id (all_files tied_files_swapped) = [Py.lit "a"; Py.lit "b"]
  /\ ordered_context tied_files
     = Py.lit "[1] IMAGES → b.png" ++ Py.nl ++ Py.lit "[2] IMAGES → a.png"
  /\ ordered_context tied_files <> ordered_context tied_files_swapped.
Proof.
  split; [apply Permutation_swap|].
  repeat split; try reflexivity.
  vm_compute. discriminate.
Qed.

(** ** Document truncation *)

Lemma len_nonneg {A} (l : list A) : (0 <= Py.len l)%Z.
Proof. unfold Py.len. lia. Qed.

Lemma slice_to_take {A} (n : Z) (l : list A) :
  (0 <= n)%Z -> Py.slice_to n l = take (Z.to_nat n) l.
Proof.
  intros Hn. unfold Py.slice_to.
  destruct (0 <=? n)%Z eqn:E; [reflexivity|lia].
Qed.

Lemma doc_truncated_marker_len : Py.len doc_truncated_marker = 25%Z.
Proof. reflexivity. Qed.

Lemma truncate_doc_short (text : str) :
  (Py.len text <= max_chars_per_doc)%Z -> truncate_doc text = text.
Proof.
  intros Hle. unfold truncate_doc.
  rewrite slice_to_take by (unfold max_chars_per_doc; lia).
  destruct (Py.len text >? max_chars_per_doc)%Z eqn:E; [lia|].
  rewrite app_nil_r. apply take_ge. unfold Py.len in Hle. lia.
Qed.

Lemma truncate_doc_long (text : str) :
  (Py.len text > max_chars_per_doc)%Z ->
  truncate_doc text
  = take (Z.to_nat max_chars_per_doc) text ++ doc_truncated_marker.
Proof.
  intros Hgt. unfold truncate_doc.
  rewrite slice_to_take by (unfold max_chars_per_doc; lia).
  destruct (Py.len text >? max_chars_per_doc)%Z eqn:E; [reflexivity|lia].
Qed.

Lemma truncate_doc_long_len (text : str) :
  (Py.len text > max_chars_per_doc)%Z ->
  Py.len (truncate_doc text) = 15025%Z.
Proof.
  intros Hgt. rewrite truncate_doc_long by assumption.
  pose proof doc_truncated_marker_len as Hm.
  unfold Py.len, max_chars_per_doc in *.
  rewrite length_app, length_take. lia.
Qed.

Lemma counted_chars_nonneg (items : list (str * DocInfo)) :
  (0 <= counted_chars items)%Z.
Proof.
  induction items as [|[fid d] items IH]; simpl; [lia|].
  pose proof (len_nonneg (truncate_doc (doc_text d))). lia.
Qed.

(** The loop on documents that fit, followed by others. *)
Lemma doc_loop_split (fitting rest : list (str * DocInfo)) (total : Z) :
  (total + counted_chars fitting <= max_total_chars)%Z ->
  match rest with
  | [] => True
  | item :: _ => overflows (total + counted_chars fitting) item
  end ->
  doc_loop (fitting ++ rest) total
  = included_whole fitting
    ++ match rest with
       | [] => []
       | item :: _ => included_partial (total + counted_chars fitting) item
       end.
Proof.
  revert total. induction fitting as [|[fid d] fitting IH]; intros total Hfit Hrest.
  - simpl in *. rewrite Z.add_0_r in *.
    destruct rest as [|[fid d] rest]; [reflexivity|].
    unfold overflows in Hrest. simpl in Hrest |- *.
    destruct (_ >? max_total_chars)%Z eqn:E; [|lia].
    unfold included_partial. simpl.
    destruct (_ >? 1000)%Z eqn:E'; [|reflexivity].
    rewrite slice_to_take by lia. reflexivity.
  - simpl in Hfit. pose proof (counted_chars_nonneg fitting) as Hnn.
    cbn [app doc_loop].
    destruct (_ >? max_total_chars)%Z eqn:E; [lia|].
    rewrite IH.
    + simpl. rewrite Z.add_assoc. reflexivity.
    + lia.
    + simpl in Hrest. rewrite Z.add_assoc in Hrest. exact Hrest.
Qed.

(** Every list of documents splits into those that fit and the rest. *)
Lemma doc_split_exists (items : list (str * DocInfo)) (total : Z) :
  (total <= max_total_chars)%Z ->
  exists fitting rest,
    items = fitting ++ rest
    /\ (total + counted_chars fitting <= max_total_chars)%Z
    /\ match rest with
       | [] => True
       | item :: _ => overflows (total + counted_chars fitting) item
       end.
Proof.
  revert total. induction items as [|[fid d] items IH]; intros total Hle.
  - exists [], []. simpl. split; [reflexivity|]. split; [lia|exact I].
  - destruct (decide (total + Py.len (truncate_doc (doc_text d))
                      <= max_total_chars)%Z) as [Hfit|Hover].
    + destruct (IH _ Hfit) as (fitting & rest & -> & Hsum & Hrest).
      exists ((fid, d) :: fitting), rest. simpl.
      split; [reflexivity|]. rewrite Z.add_assoc. split; assumption.
    + exists [], ((fid, d) :: items). simpl.
      split; [reflexivity|]. split; [lia|].
      unfold overflows. simpl. lia.
Qed.

(** C3 (as the code has it).  The text of a document is cut to 15000
    characters and the document marker is appended when it was longer.
    The documents are taken in the order of the mapping and their cut
    texts (markers included) are counted; as long as the count stays within
    50000 the documents are included whole.  The first document that would
    pass 50000 ends the loop: when the remaining budget is more than 1000
    characters, its header and the first [remaining] characters of its cut
    text are included, followed by the remaining-documents marker;
    otherwise nothing is included for it and no marker is written.  Three
    documents of 20000 characters all fit (3 x 15025 characters) and no
    remaining-documents marker is written; of a fourth one 4925 characters
    are included, followed by the marker. *)
Theorem doc_truncation_policy (documents : Dict.t DocInfo) :
  (forall text,
     ((Py.len text <= 15000)%Z -> truncate_doc text = text)
     /\ ((Py.len text > 15000)%Z ->
         truncate_doc text
         = take (Z.to_nat 15000) text ++ doc_truncated_marker))
  /\ (exists fitting rest,
        Dict.items documents = fitting ++ rest
        /\ (counted_chars fitting <= 50000)%Z
        /\ match rest with
           | [] => True
           | item :: _ => overflows (counted_chars fitting) item
           end
        /\ doc_context documents
           = Py.lit "Document Context:"
             :: included_whole fitting
             ++ match rest with
                | [] => []
                | item :: _ => included_partial (counted_chars fitting) item
                end)
  /\ (forall f1 d1 f2 d2 f3 d3,
        Py.len (doc_text d1) = 20000%Z ->
        Py.len (doc_text d2) = 20000%Z ->
        Py.len (doc_text d3) = 20000%Z ->
        doc_context [(f1, d1); (f2, d2); (f3, d3)]
        = Py.lit "Document Context:"
          :: included_whole [(f1, d1); (f2, d2); (f3, d3)]
        /\ forall f4 d4,
             Py.len (doc_text d4) = 20000%Z ->
             doc_context [(f1, d1); (f2, d2); (f3, d3); (f4, d4)]
             = Py.lit "Document Context:"
               :: included_whole [(f1, d1); (f2, d2); (f3, d3)]
               ++ [doc_header f4 d4;
                   take (Z.to_nat 4925) (doc_text d4)
                   ++ remaining_truncated_marker]).
Proof.
  split; [|split].
  - intros text. split; [apply truncate_doc_short|apply truncate_doc_long].
  - destruct (doc_split_exists (Dict.items documents) 0)
      as (fitting & rest & Heq & Hsum & Hrest); [unfold max_total_chars; lia|].
    exists fitting, rest. rewrite Z.add_0_l in Hsum, Hrest.
    split; [exact Heq|]. split; [exact Hsum|]. split; [exact Hrest|].
    unfold doc_context. rewrite Heq. f_equal.
    rewrite doc_loop_split; rewrite ?Z.add_0_l; auto.
  - intros f1 d1 f2 d2 f3 d3 H1 H2 H3.
    assert (counted_chars [(f1, d1); (f2, d2); (f3, d3)] = 45075%Z) as Hc.
    { simpl. rewrite !truncate_doc_long_len
        by (unfold max_chars_per_doc; lia). reflexivity. }
    split.
    + unfold doc_context, Dict.items. f_equal.
      rewrite <- (app_nil_r [(f1, d1); (f2, d2); (f3, d3)]) at 1.
      rewrite doc_loop_split; [apply app_nil_r| |exact I].
      rewrite Hc. unfold max_total_chars. lia.
    + intros f4 d4 H4. unfold doc_context, Dict.items. f_equal.
      change [(f1, d1); (f2, d2); (f3, d3); (f4, d4)]
        with ([(f1, d1); (f2, d2); (f3, d3)] ++ [(f4, d4)]).
      rewrite doc_loop_split.
      * f_equal. rewrite Hc. unfold included_partial. simpl.
        change (max_total_chars - (0 + 45075))%Z with 4925%Z.
        change (4925 >? 1000)%Z with true. cbv iota.
        rewrite truncate_doc_long by (unfold max_chars_per_doc; lia).
        rewrite take_app_le
          by (rewrite length_take; unfold Py.len, max_chars_per_doc in *; lia).
        rewrite take_take. repeat f_equal.
      * rewrite Hc. unfold max_total_chars. lia.
      * rewrite Hc. unfold overflows. simpl.
        rewrite truncate_doc_long_len by (unfold max_chars_per_doc; lia).
        unfold max_total_chars. lia.
Qed.

Lemma doc_truncation_policy_witness :
  doc_context three_long_docs
  = Py.lit "Document Context:" :: included_whole three_long_docs.
Proof.
  destruct (doc_truncation_policy []) as (_ & _ & H).
  apply H; vm_compute; reflexivity.
Defined.

(** C3, refuted as stated.  Three documents of 20000 characters give seven
    entries (the title and three headers with three cut texts), none of
    which mentions remaining documents.  And when exactly 1000 characters
    of budget are left, the next document is left out altogether: four
    documents counting 49000 characters are included, the fifth, of 2000
    characters, is not, and no marker is written. *)
Lemma doc_truncation_claim_fails :
  length (doc_context three_long_docs) = 7
  /\ Py.contains (Py.lit "emaining documents truncated")
       (Py.join Py.nl (doc_context three_long_docs)) = false
  /\ counted_chars (take 4 docs_leaving_1000) = 49000%Z
  /\ overflows 49000 (Py.lit "d5", long_doc "five.txt" (Z.to_nat 2000))
  /\ doc_context docs_leaving_1000
     = Py.lit "Document Context:" :: included_whole (take 4 docs_leaving_1000)
  /\ Py.contains (Py.lit "emaining documents truncated")
       (Py.join Py.nl (doc_context docs_leaving_1000)) = false.
Proof.
  split; [vm_compute; reflexivity|].
  split; [vm_compute; reflexivity|].
  split; [vm_compute; reflexivity|].
  split; [vm_compute; reflexivity|].
  split; vm_compute; reflexivity.
Qed.

(** ** Removing characters *)

Section Erases.
Variable P : ascii -> bool.

Lemma erases_refl (s : str) : erases P s s.
Proof. induction s; constructor; assumption. Qed.

Lemma erases_all (s : str) : Forall (fun c => P c = true) s -> erases P s [].
Proof. induction 1; constructor; assumption. Qed.

Lemma erases_app (s s' t t' : str) :
  erases P s t -> erases P s' t' -> erases P (s ++ s') (t ++ t').
Proof.
  induction 1; simpl; intros H'; [exact H'| |];
    constructor; auto.
Qed.

Lemma erases_trans (s t u : str) :
  erases P s t -> erases P t u -> erases P s u.
Proof.
  intros Hst. revert u.
  induction Hst as [|c s t Hst IH|c s t Hc Hst IH]; intros u Htu.
  - exact Htu.
  - inversion Htu; subst.
    + apply erases_keep, IH; assumption.
    + apply erases_drop; [assumption|]. apply IH; assumption.
  - apply erases_drop; [assumption|]. apply IH, Htu.
Qed.

Lemma erases_snoc_keep (s t : str) (c : ascii) :
  erases P s t -> erases P (s ++ [c]) (t ++ [c]).
Proof. intros H. apply erases_app; [exact H|apply erases_refl]. Qed.

Lemma erases_rev (s t : str) : erases P s t -> erases P (rev s) (rev t).
Proof.
  induction 1 as [|c s t H IH|c s t Hc H IH]; simpl.
  - constructor.
  - apply erases_app; [exact IH|apply erases_refl].
  - rewrite <- (app_nil_r (rev t)).
    apply erases_app; [exact IH|]. apply erases_drop; [exact Hc|constructor].
Qed.

Hypothesis space_erasable : forall c, Py.isspace c = true -> P c = true.

Lemma erases_lstrip (s : str) : erases P s (Py.lstrip s).
Proof.
  induction s as [|c s IH]; simpl; [constructor|].
  destruct (Py.isspace c) eqn:E.
  - apply erases_drop; [apply space_erasable, E|exact IH].
  - apply erases_refl.
Qed.

Lemma erases_strip (s : str) : erases P s (Py.strip s).
Proof.
  unfold Py.strip, Py.rstrip.
  apply (erases_trans _ (Py.lstrip s)); [apply erases_lstrip|].
  rewrite <- (rev_involutive (Py.lstrip s)) at 1.
  apply erases_rev, erases_lstrip.
Qed.

End Erases.

(** ** [str.split] *)

Lemma startswith_app (p s : str) :
  Py.startswith p s = true -> s = p ++ drop (length p) s.
Proof.
  revert s. induction p as [|a p IH]; intros s H; [reflexivity|].
  destruct s as [|b s]; simpl in *; [discriminate|].
  destruct (Ascii.eqb a b) eqn:E; [|discriminate].
  apply Ascii.eqb_eq in E. subst b. f_equal. apply IH, H.
Qed.

Lemma partition_app (sep s before after : str) :
  Splitter.partition sep s = Some (before, after) ->
  s = before ++ sep ++ after.
Proof.
  revert before after. induction s as [|c s IH]; intros before after.
  - simpl. destruct (Py.startswith sep []) eqn:E; [|discriminate].
    intros [= <- <-]. apply startswith_app in E. exact E.
  - simpl. destruct (Py.startswith sep (c :: s)) eqn:E.
    + intros [= <- <-]. apply startswith_app in E. exact E.
    + destruct (Splitter.partition sep s) as [[b a]|] eqn:Ep; [|discriminate].
      intros [= <- <-]. simpl. f_equal. apply IH. reflexivity.
Qed.

(** Joining the pieces with the separator gives the text back. *)
Lemma split_fuel_join (fuel : nat) (sep s : str) :
  exists first rest,
    Splitter.split_fuel fuel sep s = first :: rest
    /\ s = first ++ after_each sep rest.
Proof.
  revert s. induction fuel as [|fuel IH]; intros s; simpl.
  - exists s, []. split; [reflexivity|]. unfold after_each. simpl.
    rewrite app_nil_r. reflexivity.
  - destruct (Splitter.partition sep s) as [[before after]|] eqn:E.
    + destruct (IH after) as (first & rest & Hsplit & Hjoin).
      exists before, (first :: rest). rewrite Hsplit.
      split; [reflexivity|].
      apply partition_app in E. rewrite E, Hjoin at 1.
      unfold after_each. simpl. rewrite <- !app_assoc. reflexivity.
    + exists s, []. split; [reflexivity|]. unfold after_each. simpl.
      rewrite app_nil_r. reflexivity.
Qed.

Lemma split_join (sep s : str) :
  exists first rest,
    Splitter.split sep s = first :: rest
    /\ s = first ++ after_each sep rest.
Proof. apply split_fuel_join. Qed.

Lemma after_each_chars (sep p : str) (rest : list str) (c : ascii) :
  p ∈ rest -> c ∈ p -> c ∈ after_each sep rest.
Proof.
  unfold after_each. induction rest as [|q rest IH]; intros Hp Hc.
  - inversion Hp.
  - simpl. apply elem_of_cons in Hp as [->|Hp].
    + apply elem_of_app. left. apply elem_of_app. right. exact Hc.
    + apply elem_of_app. right. apply IH; assumption.
Qed.

Lemma split_piece_chars (sep s first : str) (rest : list str) (c : ascii) :
  s = first ++ after_each sep rest ->
  (c ∈ first \/ exists p, p ∈ rest /\ c ∈ p) -> c ∈ s.
Proof.
  intros -> [Hc|(p & Hp & Hc)]; apply elem_of_app; [left; exact Hc|right].
  apply (after_each_chars sep p); assumption.
Qed.

Lemma split_sep_chars (sep s first p : str) (rest : list str) (c : ascii) :
  s = first ++ after_each sep (p :: rest) -> c ∈ sep -> c ∈ s.
Proof.
  intros -> Hc. apply elem_of_app. right. unfold after_each. simpl.
  apply elem_of_app. left. apply elem_of_app. left. exact Hc.
Qed.

(** ** The recursive splitter without overlap *)

Section RecursiveErases.

Variable self : Splitter.TextSplitter.
Variable P : ascii -> bool.
Hypothesis space_erasable : forall c, Py.isspace c = true -> P c = true.
Hypothesis no_overlap : (Splitter.chunk_overlap self <= 0)%Z.

Section Loop.
Variable separator : str.
Variable recurse : str -> list str.
Variable ok : str -> Prop.
Hypothesis recurse_erases :
  forall s, ok s -> erases P s (concat (recurse s)).

Lemma concat_snoc (chunks : list str) (x : str) :
  concat (chunks ++ [x]) = concat chunks ++ x.
Proof. rewrite concat_app. simpl. rewrite app_nil_r. reflexivity. Qed.

(** The first piece, on the empty loop state. *)
Lemma first_step_erases (s : str) :
  ok s ->
  erases P s
    (concat (Splitter.recursive_step self separator recurse ([], []) s).1
     ++ (Splitter.recursive_step self separator recurse ([], []) s).2).
Proof.
  intros Hok. unfold Splitter.recursive_step. simpl.
  destruct (_ >? Splitter.chunk_size self)%Z.
  - destruct (_ >? Splitter.chunk_size self)%Z; simpl.
    + rewrite app_nil_r. apply recurse_erases, Hok.
    + apply erases_refl.
  - simpl. apply erases_refl.
Qed.

(** A later piece: the separator before it may be dropped. *)
Lemma next_step_erases (T : str) (a : Splitter.acc) (s : str) :
  Forall (fun c => P c = true) separator ->
  ok s ->
  erases P T (concat a.1 ++ a.2) ->
  erases P (T ++ separator ++ s)
    (concat (Splitter.recursive_step self separator recurse a s).1
     ++ (Splitter.recursive_step self separator recurse a s).2).
Proof.
  intros Hsep Hok HT. destruct a as [chunks cur]. simpl in HT.
  assert (erases P separator []) as Hdrop by (apply erases_all, Hsep).
  assert (forall out, erases P s out ->
            erases P (T ++ separator ++ s) (concat chunks ++ cur ++ out))
    as Hnext.
  { intros out Hout. rewrite (app_assoc (concat chunks)).
    apply erases_app; [exact HT|].
    change out with ([] ++ out). apply erases_app; assumption. }
  unfold Splitter.recursive_step.
  destruct (_ >? Splitter.chunk_size self)%Z.
  - destruct (nonempty cur) eqn:Ecur.
    + destruct (Splitter.chunk_overlap self >? 0)%Z eqn:Eo; [lia|]. simpl.
      rewrite concat_snoc.
      apply erases_app.
      * apply (erases_trans _ _ (concat chunks ++ cur)); [exact HT|].
        apply erases_app; [apply erases_refl|].
        apply erases_strip, space_erasable.
      * change s with ([] ++ s) at 2. apply erases_app; [exact Hdrop|].
        apply erases_refl.
    + destruct cur; [|discriminate]. 
      destruct (_ >? Splitter.chunk_size self)%Z; simpl.
      * rewrite concat_app, app_nil_r.
        specialize (Hnext _ (recurse_erases s Hok)). exact Hnext.
      * apply (Hnext s), erases_refl.
  - destruct (nonempty cur) eqn:Ecur; simpl.
    + rewrite (app_assoc (concat chunks)).
      apply erases_app; [exact HT|]. apply erases_refl.
    + destruct cur; [|discriminate]. apply (Hnext s), erases_refl.
Qed.

Lemma loop_erases (rest : list str) (T : str) (a : Splitter.acc) :
  Forall (fun c => P c = true) separator ->
  Forall ok rest ->
  erases P T (concat a.1 ++ a.2) ->
  erases P (T ++ after_each separator rest)
    (concat (foldl (Splitter.recursive_step self separator recurse) a rest).1
     ++ (foldl (Splitter.recursive_step self separator recurse) a rest).2).
Proof.
  intros Hsep Hok. revert T a.
  induction Hok as [|s rest Hs Hrest IH]; intros T a HT.
  - unfold after_each. simpl. rewrite app_nil_r. exact HT.
  - simpl. unfold after_each. simpl.
    rewrite <- app_assoc, (app_assoc T), (app_assoc (T ++ separator)).
    rewrite <- (app_assoc T).
    apply IH, next_step_erases; assumption.
Qed.

End Loop.
End RecursiveErases.

Section RecursiveRoundTrip.

Variable self : Splitter.TextSplitter.
Variable P : ascii -> bool.
Hypothesis space_erasable : forall c, Py.isspace c = true -> P c = true.
Hypothesis no_overlap : (Splitter.chunk_overlap self <= 0)%Z.

(** Emitting the running chunk at the end of the loop. *)
Lemma final_chunk_erases (T : str) (a : Splitter.acc) :
  erases P T (concat a.1 ++ a.2) ->
  erases P T
    (concat (if nonempty a.2 then a.1 ++ [Py.strip a.2] else a.1)).
Proof.
  destruct a as [chunks cur]. simpl. intros HT.
  destruct cur as [|c cur]; simpl.
  - rewrite app_nil_r in HT. exact HT.
  - rewrite concat_snoc.
    apply (erases_trans _ _ _ _ HT).
    apply erases_app; [apply erases_refl|].
    apply erases_strip, space_erasable.
Qed.

Lemma split_recursive_erases (seps : list str) (text : str) :
  erasable_in P seps text ->
  erases P text (concat (Splitter._split_recursive self seps text)).
Proof.
  revert text. induction seps as [|sep seps IH]; intros text Hin.
  - simpl. destruct text; simpl; [constructor|].
    rewrite app_nil_r. apply erases_refl.
  - simpl. destruct (_ <=? Splitter.chunk_size self)%Z.
    { destruct text; simpl; [constructor|].
      rewrite app_nil_r. apply erases_refl. }
    destruct (split_join sep text) as (first & rest & Hsplit & Hjoin).
    rewrite Hsplit.
    change (foldl ?f ?a (first :: rest)) with (foldl f (f a first) rest).
    assert (forall p, p = first \/ p ∈ rest -> erasable_in P seps p) as Hpieces.
    { intros p Hp sep' c Hsep' Hc Hcp. apply (Hin sep' c).
      - apply elem_of_cons. right. exact Hsep'.
      - exact Hc.
      - apply (split_piece_chars sep text first rest c Hjoin).
        destruct Hp as [->|Hp]; [left; exact Hcp|right; eauto]. }
    pose proof (first_step_erases self P sep
                  (Splitter._split_recursive self seps) (erasable_in P seps)
                  IH first (Hpieces first (or_introl eq_refl))) as Hfirst.
    set (a1 := Splitter.recursive_step self sep
                 (Splitter._split_recursive self seps) ([], []) first) in *.
    destruct rest as [|p rest].
    + unfold after_each in Hjoin. simpl in Hjoin.
      rewrite app_nil_r in Hjoin. subst first.
      pose proof (final_chunk_erases text a1 Hfirst) as Hfin.
      cbn [foldl]. destruct a1 as [chunks cur]. exact Hfin.
    + assert (Forall (fun c => P c = true) sep) as Hsep.
      { apply Forall_forall. intros c Hc. apply (Hin sep c).
        - apply elem_of_cons. left. reflexivity.
        - exact Hc.
        - apply (split_sep_chars sep text first p rest c Hjoin Hc). }
      pose proof (loop_erases self P space_erasable no_overlap sep
                    (Splitter._split_recursive self seps) (erasable_in P seps)
                    IH (p :: rest) first a1 Hsep) as Hloop.
      rewrite <- Hjoin in Hloop.
      assert (Forall (erasable_in P seps) (p :: rest)) as Hok.
      { apply Forall_forall. intros q Hq. apply Hpieces. right. exact Hq. }
      specialize (Hloop Hok Hfirst).
      apply final_chunk_erases in Hloop.
      destruct (foldl _ a1 (p :: rest)) as [chunks cur]. exact Hloop.
Qed.

End RecursiveRoundTrip.

Lemma erases_without_space (s t : str) :
  erases Py.isspace s t -> without_space t = without_space s.
Proof.
  unfold without_space.
  induction 1 as [|c s t H IH|c s t Hc H IH]; simpl.
  - reflexivity.
  - rewrite IH. reflexivity.
  - rewrite Hc. simpl. exact IH.
Qed.

Lemma separators_droppable (text : str) :
  erasable_in droppable Splitter.separators text.
Proof.
  intros sep c Hsep Hc _.
  assert (Forall (Forall (fun c => droppable c = true)) Splitter.separators)
    as Hall by (repeat constructor).
  rewrite Forall_forall in Hall. specialize (Hall sep Hsep).
  rewrite Forall_forall in Hall. apply Hall, Hc.
Qed.

Lemma separators_space_without_full_stop (text : str) :
  Forall (fun c => c <> "."%char) text ->
  erasable_in Py.isspace Splitter.separators text.
Proof.
  intros Hdot sep c Hsep Hc Hct.
  rewrite Forall_forall in Hdot. specialize (Hdot c Hct).
  assert (Forall (Forall (fun c => c = "."%char \/ Py.isspace c = true))
            Splitter.separators) as Hall.
  { repeat constructor; right; reflexivity. }
  rewrite Forall_forall in Hall. specialize (Hall sep Hsep).
  rewrite Forall_forall in Hall. destruct (Hall c Hc); [contradiction|assumption].
Qed.

(** ** Chunks as pieces of the text *)

Section Tiles.
Variable P : ascii -> bool.

Lemma tiles_gap_front (gap s : str) (chunks : list str) :
  Forall (fun c => P c = true) gap ->
  tiles P s chunks -> tiles P (gap ++ s) chunks.
Proof.
  intros Hgap H.
  destruct H as [gap' Hgap'|gap' chunk rest chunks Hgap' H].
  - apply tiles_end, Forall_app. split; assumption.
  - rewrite app_assoc. apply tiles_chunk; [|exact H].
    apply Forall_app. split; assumption.
Qed.

Lemma tiles_app (s s' : str) (chunks chunks' : list str) :
  tiles P s chunks -> tiles P s' chunks' ->
  tiles P (s ++ s') (chunks ++ chunks').
Proof.
  induction 1 as [gap Hgap|gap chunk rest chunks Hgap H IH]; intros H'.
  - apply tiles_gap_front; assumption.
  - rewrite <- !app_assoc. simpl.
    apply tiles_chunk; [exact Hgap|]. apply IH, H'.
Qed.

Lemma tiles_gap_back (s gap : str) (chunks : list str) :
  tiles P s chunks -> Forall (fun c => P c = true) gap ->
  tiles P (s ++ gap) chunks.
Proof.
  intros H Hgap. rewrite <- (app_nil_r chunks).
  apply tiles_app; [exact H|apply tiles_end, Hgap].
Qed.

Lemma tiles_one (chunk : str) : tiles P chunk [chunk].
Proof.
  rewrite <- (app_nil_r chunk) at 1.
  apply (tiles_chunk P [] chunk [] []); [constructor|].
  apply tiles_end. constructor.
Qed.

(** The concatenation of the chunks is the text without its gaps. *)
Lemma tiles_erases (s : str) (chunks : list str) :
  tiles P s chunks -> erases P s (concat chunks).
Proof.
  induction 1 as [gap Hgap|gap chunk rest chunks Hgap H IH]; simpl.
  - apply erases_all, Hgap.
  - change (chunk ++ concat chunks) with ([] ++ chunk ++ concat chunks).
    apply erases_app; [apply erases_all, Hgap|].
    apply erases_app; [apply erases_refl|exact IH].
Qed.

(** Every chunk is a contiguous piece of the text. *)
Lemma tiles_infix (s : str) (chunks : list str) (chunk : str) :
  tiles P s chunks -> chunk ∈ chunks ->
  exists before after, s = before ++ chunk ++ after.
Proof.
  induction 1 as [gap Hgap|gap c rest chunks Hgap H IH]; intros Hin.
  - inversion Hin.
  - apply elem_of_cons in Hin as [->|Hin].
    + exists gap, rest. reflexivity.
    + destruct (IH Hin) as (l1 & l2 & ->).
      exists (gap ++ c ++ l1), l2. rewrite <- !app_assoc. reflexivity.
Qed.

Hypothesis space_erasable : forall c, Py.isspace c = true -> P c = true.

Lemma lstrip_lead (s : str) :
  exists lead,
    s = lead ++ Py.lstrip s /\ Forall (fun c => P c = true) lead.
Proof.
  induction s as [|c s (lead & IH & Hlead)]; simpl.
  - exists []. split; [reflexivity|constructor].
  - destruct (Py.isspace c) eqn:E.
    + exists (c :: lead). split; [simpl; f_equal; exact IH|].
      constructor; [apply space_erasable, E|exact Hlead].
    + exists []. split; [reflexivity|constructor].
Qed.

(** [strip] takes a run of whitespace from each end. *)
Lemma strip_parts (s : str) :
  exists lead trail,
    s = lead ++ Py.strip s ++ trail
    /\ Forall (fun c => P c = true) lead
    /\ Forall (fun c => P c = true) trail.
Proof.
  destruct (lstrip_lead s) as (lead & Hs & Hlead).
  destruct (lstrip_lead (rev (Py.lstrip s))) as (trail & Ht & Htrail).
  exists lead, (rev trail). unfold Py.strip, Py.rstrip.
  split; [|split; [exact Hlead|apply Forall_rev, Htrail]].
  rewrite <- rev_app_distr, <- Ht, rev_involutive. exact Hs.
Qed.

Lemma tiles_strip (s : str) : tiles P s [Py.strip s].
Proof.
  destruct (strip_parts s) as (lead & trail & Hs & Hlead & Htrail).
  rewrite Hs at 1.
  apply tiles_chunk; [exact Hlead|apply tiles_end, Htrail].
Qed.

End Tiles.

Section RecursiveTiles.

Variable self : Splitter.TextSplitter.
Variable P : ascii -> bool.
Hypothesis space_erasable : forall c, Py.isspace c = true -> P c = true.
Hypothesis no_overlap : (Splitter.chunk_overlap self <= 0)%Z.

Section Loop.
Variable separator : str.
Variable recurse : str -> list str.
Variable ok : str -> Prop.
Hypothesis recurse_tiles : forall s, ok s -> tiles P s (recurse s).

(** The first piece, on the empty loop state: the text read so far is
    tiled by the emitted chunks and ends with the running chunk. *)
Lemma first_step_tiles (s : str) :
  ok s ->
  exists body,
    s = body ++ (Splitter.recursive_step self separator recurse ([], []) s).2
    /\ tiles P body
         (Splitter.recursive_step self separator recurse ([], []) s).1.
Proof.
  intros Hok. unfold Splitter.recursive_step. simpl.
  destruct (_ >? Splitter.chunk_size self)%Z.
  - destruct (_ >? Splitter.chunk_size self)%Z; simpl.
    + exists s. rewrite app_nil_r.
      split; [reflexivity|apply recurse_tiles, Hok].
    + exists []. split; [reflexivity|apply tiles_end; constructor].
  - simpl. exists []. split; [reflexivity|apply tiles_end; constructor].
Qed.

(** A later piece: the separator before it either stays inside the
    running chunk or falls between two chunks. *)
Lemma next_step_tiles (T : str) (a : Splitter.acc) (s : str) :
  Forall (fun c => P c = true) separator ->
  ok s ->
  (exists body, T = body ++ a.2 /\ tiles P body a.1) ->
  exists body,
    T ++ separator ++ s
    = body ++ (Splitter.recursive_step self separator recurse a s).2
    /\ tiles P body (Splitter.recursive_step self separator recurse a s).1.
Proof.
  intros Hsep Hok (body & -> & Hb). destruct a as [chunks cur].
  simpl in Hb. cbn [snd].
  unfold Splitter.recursive_step.
  destruct (_ >? Splitter.chunk_size self)%Z.
  - destruct (nonempty cur) eqn:Ecur.
    + destruct (Splitter.chunk_overlap self >? 0)%Z eqn:Eo; [lia|]. simpl.
      exists (body ++ cur ++ separator).
      split; [rewrite <- !app_assoc; reflexivity|].
      apply tiles_app; [exact Hb|].
      apply tiles_gap_back; [|exact Hsep].
      apply tiles_strip, space_erasable.
    + destruct cur; [|discriminate].
      destruct (_ >? Splitter.chunk_size self)%Z; simpl.
      * exists (body ++ separator ++ s). rewrite !app_nil_r.
        split; [reflexivity|].
        apply tiles_app; [exact Hb|].
        apply tiles_gap_front; [exact Hsep|apply recurse_tiles, Hok].
      * exists (body ++ separator). rewrite app_nil_r, <- app_assoc.
        split; [reflexivity|apply tiles_gap_back; assumption].
  - destruct (nonempty cur) eqn:Ecur; simpl.
    + exists body. rewrite <- app_assoc. split; [reflexivity|exact Hb].
    + destruct cur; [|discriminate].
      exists (body ++ separator). rewrite app_nil_r, <- app_assoc.
      split; [reflexivity|apply tiles_gap_back; assumption].
Qed.

Lemma loop_tiles (rest : list str) (T : str) (a : Splitter.acc) :
  Forall (fun c => P c = true) separator ->
  Forall ok rest ->
  (exists body, T = body ++ a.2 /\ tiles P body a.1) ->
  exists body,
    T ++ after_each separator rest
    = body ++ (foldl (Splitter.recursive_step self separator recurse) a rest).2
    /\ tiles P body
         (foldl (Splitter.recursive_step self separator recurse) a rest).1.
Proof.
  intros Hsep Hok. revert T a.
  induction Hok as [|s rest Hs Hrest IH]; intros T a HT.
  - unfold after_each. simpl. rewrite app_nil_r. exact HT.
  - simpl. unfold after_each. simpl. fold (after_each separator rest).
    rewrite <- app_assoc, (app_assoc T), (app_assoc (T ++ separator)).
    rewrite <- (app_assoc T).
    apply IH, next_step_tiles; assumption.
Qed.

End Loop.

(** Emitting the running chunk at the end of the loop. *)
Lemma final_chunk_tiles (T : str) (a : Splitter.acc) :
  (exists body, T = body ++ a.2 /\ tiles P body a.1) ->
  tiles P T (if nonempty a.2 then a.1 ++ [Py.strip a.2] else a.1).
Proof.
  destruct a as [chunks cur]. simpl. intros (body & -> & Hb).
  destruct cur as [|c cur]; simpl.
  - rewrite app_nil_r. exact Hb.
  - apply tiles_app; [exact Hb|]. apply tiles_strip, space_erasable.
Qed.

Lemma split_recursive_tiles (seps : list str) (text : str) :
  erasable_in P seps text ->
  tiles P text (Splitter._split_recursive self seps text).
Proof.
  revert text. induction seps as [|sep seps IH]; intros text Hin.
  - simpl. destruct text; simpl; [apply tiles_end; constructor|].
    apply tiles_one.
  - simpl. destruct (_ <=? Splitter.chunk_size self)%Z.
    { destruct text; simpl; [apply tiles_end; constructor|].
      apply tiles_one. }
    destruct (split_join sep text) as (first & rest & Hsplit & Hjoin).
    rewrite Hsplit.
    change (foldl ?f ?a (first :: rest)) with (foldl f (f a first) rest).
    assert (forall p, p = first \/ p ∈ rest -> erasable_in P seps p) as Hpieces.
    { intros p Hp sep' c Hsep' Hc Hcp. apply (Hin sep' c).
      - apply elem_of_cons. right. exact Hsep'.
      - exact Hc.
      - apply (split_piece_chars sep text first rest c Hjoin).
        destruct Hp as [->|Hp]; [left; exact Hcp|right; eauto]. }
    pose proof (first_step_tiles sep
                  (Splitter._split_recursive self seps) (erasable_in P seps)
                  IH first (Hpieces first (or_introl eq_refl))) as Hfirst.
    set (a1 := Splitter.recursive_step self sep
                 (Splitter._split_recursive self seps) ([], []) first) in *.
    destruct rest as [|p rest].
    + unfold after_each in Hjoin. simpl in Hjoin.
      rewrite app_nil_r in Hjoin. subst first.
      pose proof (final_chunk_tiles text a1 Hfirst) as Hfin.
      cbn [foldl]. destruct a1 as [chunks cur]. exact Hfin.
    + assert (Forall (fun c => P c = true) sep) as Hsep.
      { apply Forall_forall. intros c Hc. apply (Hin sep c).
        - apply elem_of_cons. left. reflexivity.
        - exact Hc.
        - apply (split_sep_chars sep text first p rest c Hjoin Hc). }
      pose proof (loop_tiles sep
                    (Splitter._split_recursive self seps) (erasable_in P seps)
                    IH (p :: rest) first a1 Hsep) as Hloop.
      rewrite <- Hjoin in Hloop.
      assert (Forall (erasable_in P seps) (p :: rest)) as Hok.
      { apply Forall_forall. intros q Hq. apply Hpieces. right. exact Hq. }
      specialize (Hloop Hok Hfirst).
      apply final_chunk_tiles in Hloop.
      destruct (foldl _ a1 (p :: rest)) as [chunks cur]. exact Hloop.
Qed.

End RecursiveTiles.




(** The non-recursive splitter loses more: a sentence longer than the
    chunk size that meets an empty running chunk is not emitted at all. *)
Example split_text_drops_long_sentence :
  Splitter.split_text (Splitter.RecursiveTextSplitter 10 0)
    (Py.lit "hello world. foo bar baz. qux")
  = Some [Py.lit "qux"].
Proof. reflexivity. Qed.

(** ** Chunk sizes *)

(** C7, evaluated on a failing input.  With chunk size 5 and no overlap,
    the text [ab], a blank line, [cccccc dddddd] gives the chunks [ab] and
    [cccccc dddddd]: the second has 13 characters and still contains a
    separator, and the splitter itself cuts it in two when it is given
    alone. *)
Theorem recursive_split_oversize_chunk :
  Splitter.recursive_split_text (Splitter.RecursiveTextSplitter 5 0)
    two_paragraphs
  = [Py.lit "ab"; Py.lit "cccccc dddddd"]
  /\ Py.len (Py.lit "cccccc dddddd") = 13%Z
  /\ Py.contains (Py.lit " ") (Py.lit "cccccc dddddd") = true
  /\ Splitter.recursive_split_text (Splitter.RecursiveTextSplitter 5 0)
       (Py.lit "cccccc dddddd")
     = [Py.lit "cccccc"; Py.lit "dddddd"].
Proof. repeat split; reflexivity. Qed.

(** With overlap the running chunk is seeded with the end of the emitted
    one and passes the chunk size as well. *)
Example recursive_split_overlap_oversize :
  Splitter.recursive_split_text (Splitter.RecursiveTextSplitter 10 8)
    (Py.lit "aaaaaaaa bbbbbbbb")
  = [Py.lit "aaaaaaaa"; Py.lit "aaaaaaaa bbbbbbbb"].
Proof. reflexivity. Qed.

(** ** The fuel of [split] *)

Lemma partition_shorter (sep s before after : str) :
  sep <> [] ->
  Splitter.partition sep s = Some (before, after) ->
  length after < length s.
Proof.
  intros Hsep H. apply partition_app in H. subst s.
  rewrite !length_app. destruct sep; [contradiction|]. simpl. lia.
Qed.

(** More rounds than [length s] change nothing: the definition of [split]
    never stops for lack of fuel. *)
Lemma split_fuel_enough (sep : str) (fuel : nat) (s : str) :
  sep <> [] -> length s <= fuel ->
  Splitter.split_fuel fuel sep s = Splitter.split sep s.
Proof.
  intros Hsep. unfold Splitter.split.
  assert (forall n m s, length s <= n -> length s <= m ->
            Splitter.split_fuel n sep s = Splitter.split_fuel m sep s) as H.
  { induction n as [|n IH]; intros m s' Hn Hm.
    - destruct s'; [|simpl in Hn; lia].
      destruct m; simpl; [reflexivity|].
      destruct sep; [contradiction|]. reflexivity.
    - destruct m as [|m].
      + destruct s'; [|simpl in Hm; lia].
        simpl. destruct sep; [contradiction|]. reflexivity.
      + simpl. destruct (Splitter.partition sep s') as [[b a]|] eqn:E;
          [|reflexivity].
        pose proof (partition_shorter _ _ _ _ Hsep E).
        f_equal. apply IH; lia. }
  intros Hlen. apply H; lia.
Qed.

(** * Further properties *)

(** ** [strip] *)

Lemma lstrip_head (s : str) :
  match Py.lstrip s with
  | c :: _ => Py.isspace c = false
  | [] => True
  end.
Proof.
  induction s as [|c s IH]; simpl; [exact I|].
  destruct (Py.isspace c) eqn:E; [exact IH|exact E].
Qed.

Lemma lstrip_fixed (c : ascii) (s : str) :
  Py.isspace c = false -> Py.lstrip (c :: s) = c :: s.
Proof. intros E. simpl. rewrite E. reflexivity. Qed.

Lemma lstrip_idemp (s : str) : Py.lstrip (Py.lstrip s) = Py.lstrip s.
Proof.
  pose proof (lstrip_head s) as H.
  destruct (Py.lstrip s) as [|c t]; [reflexivity|].
  apply lstrip_fixed, H.
Qed.

Lemma lstrip_snoc (s : str) (c : ascii) :
  Py.isspace c = false -> Py.lstrip (s ++ [c]) = Py.lstrip s ++ [c].
Proof.
  intros E. induction s as [|d s IH]; simpl.
  - rewrite E. reflexivity.
  - destruct (Py.isspace d); [exact IH|reflexivity].
Qed.

Lemma rstrip_cons (c : ascii) (s : str) :
  Py.isspace c = false -> Py.rstrip (c :: s) = c :: Py.rstrip s.
Proof.
  intros E. unfold Py.rstrip. simpl.
  rewrite lstrip_snoc by exact E. rewrite rev_app_distr. reflexivity.
Qed.

Lemma rstrip_idemp (s : str) : Py.rstrip (Py.rstrip s) = Py.rstrip s.
Proof.
  unfold Py.rstrip. rewrite rev_involutive, lstrip_idemp. reflexivity.
Qed.

(** A stripped text starts with the first character that is not
    whitespace. *)
Lemma strip_cons (s : str) :
  Py.strip s
  = match Py.lstrip s with
    | c :: t => c :: Py.rstrip t
    | [] => []
    end.
Proof.
  unfold Py.strip. pose proof (lstrip_head s) as H.
  destruct (Py.lstrip s) as [|c t]; [reflexivity|].
  apply rstrip_cons, H.
Qed.

Lemma strip_idemp (s : str) : Py.strip (Py.strip s) = Py.strip s.
Proof.
  rewrite (strip_cons s). pose proof (lstrip_head s) as H.
  destruct (Py.lstrip s) as [|c t]; [reflexivity|].
  unfold Py.strip. rewrite lstrip_fixed by exact H.
  rewrite rstrip_cons by exact H. rewrite rstrip_idemp. reflexivity.
Qed.

Lemma last_default_irrel {A} (l : list A) (d d' : A) :
  l <> [] -> List.last l d = List.last l d'.
Proof.
  induction l as [|x l IH]; [contradiction|]. intros _.
  destruct l as [|y l]; [reflexivity|].
  change (List.last (y :: l) d = List.last (y :: l) d').
  apply IH. discriminate.
Qed.

(** The last character of a right-stripped text is not whitespace. *)
Lemma rstrip_last (s : str) (d : ascii) :
  Py.rstrip s = [] \/ Py.isspace (List.last (Py.rstrip s) d) = false.
Proof.
  unfold Py.rstrip. pose proof (lstrip_head (rev s)) as H.
  destruct (Py.lstrip (rev s)) as [|c t]; [left; reflexivity|].
  right. simpl. rewrite last_last. exact H.
Qed.

(** No whitespace at either end of a stripped text. *)
Lemma strip_ends (s : str) (c : ascii) (t : str) :
  Py.strip s = c :: t ->
  Py.isspace c = false /\ Py.isspace (List.last (c :: t) c) = false.
Proof.
  intros Hs. split.
  - rewrite strip_cons in Hs. pose proof (lstrip_head s) as H.
    destruct (Py.lstrip s) as [|d u]; [discriminate|].
    injection Hs as -> _. exact H.
  - unfold Py.strip in Hs.
    pose proof (rstrip_last (Py.lstrip s) c) as H. rewrite Hs in H.
    destruct H as [H|H]; [discriminate|exact H].
Qed.

Lemma lstrip_nil (s : str) :
  Py.lstrip s = [] <-> Forall (fun c => Py.isspace c = true) s.
Proof.
  induction s as [|c s IH]; simpl.
  - split; [constructor|reflexivity].
  - destruct (Py.isspace c) eqn:E.
    + rewrite IH. split; [intros H; constructor; assumption|].
      intros H. inversion H; assumption.
    + split; [discriminate|]. intros H. inversion H; congruence.
Qed.

Lemma strip_nil (s : str) :
  Py.strip s = [] <-> Forall (fun c => Py.isspace c = true) s.
Proof.
  rewrite <- lstrip_nil, strip_cons.
  destruct (Py.lstrip s); split; (reflexivity || discriminate).
Qed.

(** ** Pieces of [split] on a single character *)

Lemma startswith_char (c : ascii) (s : str) :
  Py.startswith [c] s = true <-> exists t, s = c :: t.
Proof.
  destruct s as [|d s]; simpl.
  - split; [discriminate|]. intros [t H]. discriminate.
  - destruct (Ascii.eqb c d) eqn:E.
    + apply Ascii.eqb_eq in E. subst d. split; eauto.
    + apply Ascii.eqb_neq in E. split; [discriminate|].
      intros [t H]. congruence.
Qed.

Lemma partition_char_none (c : ascii) (s : str) :
  Splitter.partition [c] s = None -> c ∉ s.
Proof.
  induction s as [|d s IH]; [intros _ H; inversion H|].
  cbn [Splitter.partition].
  destruct (Py.startswith [c] (d :: s)) eqn:E; [discriminate|].
  destruct (Splitter.partition [c] s) as [[b a]|] eqn:Ep; [discriminate|].
  intros _ Hin. apply elem_of_cons in Hin as [->|Hin].
  - assert (Py.startswith [d] (d :: s) = true) as H
      by (apply startswith_char; eauto).
    congruence.
  - apply IH; [reflexivity|exact Hin].
Qed.

Lemma partition_char_before (c : ascii) (s before after : str) :
  Splitter.partition [c] s = Some (before, after) -> c ∉ before.
Proof.
  revert before. induction s as [|d s IH]; intros before.
  - simpl. discriminate.
  - cbn [Splitter.partition].
    destruct (Py.startswith [c] (d :: s)) eqn:E.
    + intros [= <- _] H. inversion H.
    + destruct (Splitter.partition [c] s) as [[b a]|] eqn:Ep; [|discriminate].
      intros [= <- <-] Hin. apply elem_of_cons in Hin as [->|Hin].
      * assert (Py.startswith [d] (d :: s) = true) as H
          by (apply startswith_char; eauto).
        congruence.
      * apply (IH b); [reflexivity|exact Hin].
Qed.

(** No piece contains the separating character. *)
Lemma split_char_pieces (c : ascii) (s p : str) :
  p ∈ Splitter.split [c] s -> c ∉ p.
Proof.
  unfold Splitter.split.
  assert (forall n s, length s <= n ->
            p ∈ Splitter.split_fuel n [c] s -> c ∉ p) as H.
  { clear s. induction n as [|n IH]; intros s Hlen; simpl.
    - destruct s; [|simpl in Hlen; lia].
      intros Hp%list_elem_of_singleton. subst p. intros H. inversion H.
    - destruct (Splitter.partition [c] s) as [[b a]|] eqn:E.
      + intros Hp. apply elem_of_cons in Hp as [->|Hp].
        * apply (partition_char_before c s b a E).
        * apply (IH a); [|exact Hp].
          pose proof (partition_shorter [c] s b a) as Hs.
          specialize (Hs ltac:(discriminate) E). lia.
      + intros Hp%list_elem_of_singleton. subst p.
        apply partition_char_none, E. }
  apply H. lia.
Qed.

Lemma last_elem_of {A} (l : list A) (d : A) :
  l <> [] -> List.last l d ∈ l.
Proof.
  induction l as [|x l IH]; [contradiction|]. intros _.
  destruct l as [|y l]; [left|].
  right. apply IH. discriminate.
Qed.

(** The last piece is the end of the text. *)
Lemma last_piece_suffix (sep first : str) (rest : list str) :
  List.last (first :: rest) [] `suffix_of` first ++ after_each sep rest.
Proof.
  revert first. induction rest as [|p rest IH]; intros first.
  - unfold after_each. simpl. rewrite app_nil_r. reflexivity.
  - change (List.last (first :: p :: rest) [])
      with (List.last (p :: rest) []).
    unfold after_each. simpl. fold (after_each sep rest).
    etransitivity; [apply IH|].
    rewrite <- app_assoc. apply suffix_app_r, suffix_app_r. reflexivity.
Qed.

(** The last piece is the whole text, or what follows the last
    separator. *)
Lemma last_piece_after (sep first : str) (rest : list str) :
  (rest = [] /\ List.last (first :: rest) [] = first)
  \/ exists before,
       first ++ after_each sep rest
       = before ++ sep ++ List.last (first :: rest) [].
Proof.
  revert first. induction rest as [|p rest IH]; intros first.
  - left. split; reflexivity.
  - right.
    change (List.last (first :: p :: rest) [])
      with (List.last (p :: rest) []).
    unfold after_each. simpl. fold (after_each sep rest).
    destruct (IH p) as [[-> E]|[before E]].
    + exists first. unfold after_each. simpl. rewrite app_nil_r.
      reflexivity.
    + exists (first ++ sep ++ before).
      rewrite <- !app_assoc, E. reflexivity.
Qed.

(** ** Request validation and settings *)

(** X1.  [validate_message] rejects exactly the messages made of
    whitespace only (the empty one included).  An accepted message is the
    stripped input: it is not empty, neither its first nor its last
    character is whitespace, and validating it again returns it
    unchanged. *)
Theorem validate_message_stripped (v : str) :
  (Forall (fun c => Py.isspace c = true) v ->
   validate_message v = ValueError (Py.lit "Message cannot be empty"))
  /\ (~ Forall (fun c => Py.isspace c = true) v ->
      exists c t,
        validate_message v = Valid (c :: t)
        /\ c :: t = Py.strip v
        /\ Py.isspace c = false
        /\ Py.isspace (List.last (c :: t) c) = false
        /\ validate_message (c :: t) = Valid (c :: t)).
Proof.
  unfold validate_message. split.
  - intros H. apply strip_nil in H. rewrite H. reflexivity.
  - intros H. rewrite <- strip_nil in H.
    destruct (Py.strip v) as [|c t] eqn:E; [contradiction|].
    exists c, t. simpl. split; [reflexivity|]. split; [reflexivity|].
    destruct (strip_ends v c t E) as [Hc Hl].
    split; [exact Hc|]. split; [exact Hl|].
    rewrite <- E, strip_idemp, E. reflexivity.
Qed.

Lemma validate_message_stripped_witness :
  validate_message (Py.lit "   ")
  = ValueError (Py.lit "Message cannot be empty")
  /\ validate_message (Py.lit "  hi there ") = Valid (Py.lit "hi there").
Proof.
  split.
  - apply (validate_message_stripped (Py.lit "   ")).
    repeat constructor.
  - destruct (validate_message_stripped (Py.lit "  hi there "))
      as (_ & H).
    destruct H as (c & t & H & _).
    + intros H. apply strip_nil in H. discriminate H.
    + reflexivity.
Defined.

(** X2.  The list of allowed origins read from the environment value is
    never empty; each origin in it is non-empty, has no whitespace at
    either end and, unless it is the fallback [*], is one of the
    comma-separated fields of the value, stripped, so it holds no comma. *)
Theorem cors_origins_clean (value : str) :
  cors_origins value <> []
  /\ (forall origin,
        origin ∈ cors_origins value ->
        origin <> []
        /\ Py.strip origin = origin
        /\ ","%char ∉ origin).
Proof.
  unfold cors_origins.
  set (origins := List.filter nonempty
                    (map Py.strip (Splitter.split (Py.lit ",") value))).
  assert (forall o, o ∈ origins ->
            o <> [] /\ Py.strip o = o /\ ","%char ∉ o) as Hall.
  { intros o Ho. unfold origins in Ho.
    apply list_elem_of_In, filter_In in Ho as [Ho Hne].
    apply in_map_iff in Ho as (p & <- & Hp).
    split; [destruct (Py.strip p); [discriminate|discriminate]|].
    split; [apply strip_idemp|].
    intros Hc.
    assert (","%char ∈ p) as Hcp.
    { clear -Hc. pose proof (erases_strip Py.isspace (fun _ H => H) p) as He.
      induction He; [inversion Hc| |].
      - apply elem_of_cons in Hc as [->|Hc]; [left|right; auto].
      - right. auto. }
    apply (split_char_pieces ","%char value p); [|exact Hcp].
    apply list_elem_of_In, Hp. }
  destruct origins as [|o origins'] eqn:E; simpl.
  - split; [discriminate|].
    intros origin Ho%list_elem_of_singleton. subst origin.
    split; [discriminate|]. split; [reflexivity|].
    intros H. apply elem_of_cons in H as [H|H]; [discriminate|inversion H].
  - split; [discriminate|]. exact Hall.
Qed.

(** ** The file name of a CSV loaded from a URL *)

(** X3.  The file name recorded for a CSV loaded from a URL is the text
    after the last [/] of the URL (the whole URL when it has no [/]), and
    the fallback [csv_<file_id>.csv] when that text is empty; it is never
    empty. *)
Theorem url_filename_segment (url file_id : str) :
  exists segment,
    ("/"%char ∉ segment)
    /\ (url = segment \/ exists before, url = before ++ "/"%char :: segment)
    /\ url_filename url file_id
       = (if nonempty segment then segment
          else Py.lit "csv_" ++ file_id ++ Py.lit ".csv")
    /\ url_filename url file_id <> [].
Proof.
  unfold url_filename.
  destruct (split_join (Py.lit "/") url) as (first & rest & Hs & Hj).
  rewrite Hs. exists (List.last (first :: rest) []).
  split; [|split; [|split]].
  - apply (split_char_pieces "/"%char url).
    change ["/"%char] with (Py.lit "/"). rewrite Hs.
    apply last_elem_of. discriminate.
  - destruct (last_piece_after (Py.lit "/") first rest) as [[-> E]|[before E]].
    + left. rewrite Hj. unfold after_each. simpl. apply app_nil_r.
    + right. exists before. rewrite Hj, E. reflexivity.
  - reflexivity.
  - destruct (List.last (first :: rest) []); discriminate.
Qed.

(** ** Clearing a history, deleting a session *)

(** X4.  [clear_chat_history] removes the history of the session and
    nothing else: sessions and the other histories stay.  It reports the
    number of messages removed, answers [cleared] exactly when there was a
    history, and a second call finds nothing to clear. *)
Theorem clear_chat_history_effect (sid : str) (st : AppState) :
  let out := clear_chat_history sid st in
  chat_history out.1 !! sid = None
  /\ sessions out.1 = sessions st
  /\ (forall sid', sid' <> sid ->
        chat_history out.1 !! sid' = chat_history st !! sid')
  /\ ch_messages_deleted out.2
     = length (default [] (chat_history st !! sid))
  /\ (ch_status out.2 = Py.lit "cleared" <-> is_Some (chat_history st !! sid))
  /\ clear_chat_history sid out.1
     = (out.1, {| ch_status := Py.lit "not_found";
                  ch_messages_deleted := 0 |}).
Proof.
  unfold clear_chat_history. destruct (chat_history st !! sid) eqn:E; simpl.
  - rewrite lookup_delete_eq.
    repeat split; eauto.
    intros sid' Hne. apply lookup_delete_ne. congruence.
  - rewrite E. repeat split; eauto; try discriminate.
    intros [? ?]. discriminate.
Qed.

Lemma foldl_step_bound {A} (g : nat -> A -> nat) (l : list A) (a : nat) :
  (forall n x, g n x <= n + 1) -> foldl g a l <= a + length l.
Proof.
  intros Hg. revert a. induction l as [|x l IH]; intros a; simpl; [lia|].
  specialize (IH (g a x)). specialize (Hg a x). lia.
Qed.

Lemma foldl_step_exact {A} (g : nat -> A -> nat) (l : list A) (a : nat) :
  (forall n x, x ∈ l -> g n x = n + 1) -> foldl g a l = a + length l.
Proof.
  revert a. induction l as [|x l IH]; intros a Hg; simpl; [lia|].
  rewrite IH.
  - rewrite Hg by left. lia.
  - intros n y Hy. apply Hg. right. exact Hy.
Qed.

Lemma unlinked_le (unlink : str -> bool) (p : str) : unlinked unlink p <= 1.
Proof. unfold unlinked. destruct (unlink p); lia. Qed.

Lemma image_unlinked_le (unlink : str -> bool) (i : ImageInfo) :
  image_unlinked unlink i <= 1.
Proof.
  unfold image_unlinked. destruct (unlink (img_path i)); [|lia].
  destruct (img_resized_path i) as [p|]; [|lia].
  destruct (nonempty p); [apply unlinked_le|lia].
Qed.

(** X5.  [delete_session] on an unknown id raises 404 and changes
    nothing.  On a stored session it removes the session and its history
    and leaves every other session and history alone; it reports the
    length of the removed history, and a number of deleted files that is
    at most the number of artifacts, and equal to it when no unlink fails
    and every CSV has a path. *)
Theorem delete_session_effect (unlink : str -> bool) (sid : str)
    (st : AppState) :
  let out := delete_session unlink sid st in
  (sessions st !! sid = None ->
   out = (st, HTTPException 404 (Py.lit "Session not found")))
  /\ (forall sess,
        sessions st !! sid = Some sess ->
        sessions out.1 !! sid = None
        /\ chat_history out.1 !! sid = None
        /\ (forall sid', sid' <> sid ->
              sessions out.1 !! sid' = sessions st !! sid'
              /\ chat_history out.1 !! sid' = chat_history st !! sid')
        /\ exists r,
             out.2 = Returned r
             /\ ds_session_id r = sid
             /\ ds_messages_deleted r
                = length (default [] (chat_history st !! sid))
             /\ ds_files_deleted r <= artifact_count sess
             /\ ((forall p, unlink p = true) ->
                 (forall c, c ∈ Dict.values (csvs sess) -> csv_path c <> None) ->
                 ds_files_deleted r = artifact_count sess)).
Proof.
  unfold delete_session. split.
  - intros ->. reflexivity.
  - intros sess ->. simpl.
    split; [apply lookup_delete_eq|].
    split; [apply drop_history_lookup|].
    split.
    { intros sid' Hne. split; [apply lookup_delete_ne; congruence|].
      apply drop_history_other, Hne. }
    eexists. split; [reflexivity|]. simpl.
    split; [reflexivity|].
    split; [destruct (chat_history st !! sid); reflexivity|].
    unfold artifact_count, Dict.items. split.
    + etransitivity; [apply foldl_step_bound|].
      { intros n [k d]. pose proof (unlinked_le unlink (doc_path d)). lia. }
      apply Nat.add_le_mono_r.
      etransitivity; [apply foldl_step_bound|].
      { intros n [k c]. destruct (csv_path c) as [p|]; [|lia].
        pose proof (unlinked_le unlink p). lia. }
      apply Nat.add_le_mono_r.
      etransitivity; [apply foldl_step_bound|].
      { intros n [k i]. pose proof (image_unlinked_le unlink i). lia. }
      lia.
    + intros Hok Hpath.
      rewrite foldl_step_exact.
      2:{ intros n [k d] _. unfold unlinked. rewrite Hok. reflexivity. }
      rewrite foldl_step_exact.
      2:{ intros n [k c] Hc.
          destruct (csv_path c) as [p|] eqn:Ep.
          - unfold unlinked. rewrite Hok. reflexivity.
          - exfalso. apply (Hpath c); [|exact Ep].
            unfold Dict.values.
            apply (list_elem_of_fmap_2 snd _ (k, c)), Hc. }
      rewrite foldl_step_exact.
      2:{ intros n [k i] _. unfold image_unlinked, unlinked. rewrite Hok.
          destruct (img_resized_path i) as [p|]; [|reflexivity].
          destruct (nonempty p); [rewrite Hok|]; reflexivity. }
      lia.
Qed.

(** X6.  A negative [limit] of the history endpoint leaves out the first
    [-limit] messages and returns the rest, while [total_messages] still
    counts the whole history. *)
Theorem get_chat_history_negative_limit (st : AppState) (sid : str)
    (history : list Message) (limit : Z) :
  chat_history st !! sid = Some history ->
  (limit < 0)%Z ->
  hr_messages (get_chat_history sid limit st)
  = drop (Z.to_nat (- limit)) history
  /\ hr_total_messages (get_chat_history sid limit st) = length history.
Proof.
  intros Hh Hneg. unfold get_chat_history. rewrite Hh. simpl.
  destruct (limit =? 0)%Z eqn:E; [lia|].
  unfold Py.slice_from. destruct (0 <=? - limit)%Z eqn:E'; [|lia].
  split; reflexivity.
Qed.

Lemma get_chat_history_negative_limit_witness :
  hr_messages (get_chat_history (Py.lit "s") (-1) three_messages_state)
  = drop 1 three_messages.
Proof.
  apply (get_chat_history_negative_limit three_messages_state (Py.lit "s")
           three_messages (-1)).
  - apply lookup_singleton_eq.
  - lia.
Defined.

(** ** More on the chat endpoint *)

Section ChatMore.

Variable PILImage : Type.
Variable Image_open : str -> option PILImage.
Variable generate_content : list (Part PILImage) -> completion.

(** X7.  The history of a session only grows in a chat call: after the
    call it is the old history followed by the user message, and by the
    reply when the completion succeeded; a failed completion leaves the
    user message without a reply.  No other history changes. *)
Theorem chat_history_append_only (clock : Clock) (sid msg : str)
    (st : AppState) :
  let out := chat PILImage Image_open generate_content clock sid msg st in
  let old := default [] (chat_history st !! sid) in
  let asked := user_turn clock msg (session_data_of sid st) in
  (forall r, out.2 = Returned r ->
     chat_history out.1 !! sid
     = Some (old ++ [asked;
                     {| role := assistant; content := cr_response r;
                        timestamp := t_assistant clock; context := None |}]))
  /\ (forall code detail, out.2 = HTTPException code detail ->
        code = 500%Z /\ chat_history out.1 !! sid = Some (old ++ [asked]))
  /\ (forall sid', sid' <> sid ->
        chat_history out.1 !! sid' = chat_history st !! sid').
Proof.
  unfold chat, user_turn.
  destruct (chat_with_session _ _ _ _ _ _ _ _) as [response|e]; simpl.
  - split; [|split].
    + intros r [= <-]. rewrite lookup_insert_eq, <- app_assoc. reflexivity.
    + discriminate.
    + intros sid' Hne. apply lookup_insert_ne. congruence.
  - split; [|split].
    + discriminate.
    + intros code detail [= <- <-]. rewrite lookup_insert_eq. auto.
    + intros sid' Hne. apply lookup_insert_ne. congruence.
Qed.

(** X8.  A chat call never adds, removes or changes an artifact: in every
    session the three mappings and [created_at] are as before, the other
    sessions are untouched altogether, and no session appears or
    disappears. *)
Theorem chat_keeps_artifacts (clock : Clock) (sid msg : str)
    (st : AppState) (sid' : str) :
  let out := chat PILImage Image_open generate_content clock sid msg st in
  files_of <$> (sessions out.1 !! sid') = files_of <$> (sessions st !! sid')
  /\ (sid' <> sid -> sessions out.1 !! sid' = sessions st !! sid').
Proof.
  unfold chat.
  destruct (chat_with_session _ _ _ _ _ _ _ _) as [response|e]; simpl;
    [|split; reflexivity].
  unfold touch. destruct (sessions st !! sid) as [sess|] eqn:E;
    [|split; reflexivity].
  destruct (decide (sid = sid')) as [<-|Hne].
  - rewrite lookup_insert_eq, E. split; [reflexivity|congruence].
  - rewrite lookup_insert_ne by assumption. split; reflexivity.
Qed.

(** X9.  The answer of a successful chat call counts the files of the
    session: [total_files] is the sum of the three per-kind counts and the
    length of [file_order], and the per-kind counts are those recorded
    with the user message. *)
Theorem chat_metadata_counts (clock : Clock) (sid msg : str)
    (st : AppState) (r : ChatResponse) :
  (chat PILImage Image_open generate_content clock sid msg st).2
  = Returned r ->
  let sd := session_data_of sid st in
  cr_session_id r = sid
  /\ images_used (cr_metadata r) = length (sd_images sd)
  /\ csvs_used (cr_metadata r) = length (sd_csvs sd)
  /\ documents_used (cr_metadata r) = length (sd_documents sd)
  /\ total_files (cr_metadata r)
     = images_used (cr_metadata r) + csvs_used (cr_metadata r)
       + documents_used (cr_metadata r)
  /\ length (file_order (cr_metadata r)) = total_files (cr_metadata r).
Proof.
  unfold chat.
  destruct (chat_with_session _ _ _ _ _ _ _ _) as [response|e]; simpl;
    [|discriminate].
  intros [= <-]. simpl.
  repeat split; try reflexivity.
  - unfold all_files. rewrite sort_by_perm.
    unfold collect_files, Dict.items.
    rewrite !length_app, !length_map. lia.
  - rewrite length_map. reflexivity.
Qed.

End ChatMore.

Lemma chat_metadata_counts_witness :
  total_files (cr_metadata two_files_answer) = 2
  /\ file_order (cr_metadata two_files_answer)
     = [Py.lit "a.png"; Py.lit "n.txt"].
Proof.
  destruct (chat_metadata_counts unit open_fails answer_ok sample_clock
              (Py.lit "s") (Py.lit "hi") image_and_doc_state
              two_files_answer) as (_ & _ & _ & _ & H & _).
  - vm_compute. reflexivity.
  - split; [exact H|reflexivity].
Defined.

(** ** The conversation shown to the model *)

Lemma window_of_ten {A} (h : list A) (m : A) :
  Py.slice_from (-10) (h ++ [m]) = drop (length h - 9) h ++ [m].
Proof.
  unfold Py.slice_from. change (0 <=? -10)%Z with false. cbv iota.
  change (Z.to_nat (- -10)) with 10.
  rewrite length_app. simpl length.
  replace (length h + 1 - 10) with (length h - 9) by lia.
  apply drop_app_le. lia.
Qed.

Lemma all_but_last {A} (l : list A) (m : A) :
  Py.slice_to (-1) (l ++ [m]) = l.
Proof.
  unfold Py.slice_to. change (0 <=? -1)%Z with false. cbv iota.
  change (Z.to_nat (- -1)) with 1.
  rewrite length_app. simpl length.
  replace (length l + 1 - 1) with (length l) by lia.
  rewrite take_app_le by lia. apply take_ge. lia.
Qed.

Section PromptWindow.

Variable PILImage : Type.
Variable Image_open : str -> option PILImage.
Variable generate_content : list (Part PILImage) -> completion.

(** X10.  The chat endpoint calls the completion on the prompt assembled
    from the last ten messages of the history, the new user message
    included; the conversation text of that prompt renders the messages
    before it, so at most the nine latest earlier messages, in order, and
    never the new message itself. *)
Theorem prompt_history_window (clock : Clock) (sid msg : str)
    (st : AppState) :
  let old := default [] (chat_history st !! sid) in
  let sd := session_data_of sid st in
  let window := Py.slice_from (-10) (old ++ [user_turn clock msg sd]) in
  let shown := drop (length old - 9) old in
  admitted (chat PILImage Image_open generate_content clock sid msg st).2
  = match generate_content
            (context_parts PILImage Image_open msg window (sd_images sd)
               (sd_csvs sd) (sd_documents sd) (ordered_context sd)) with
    | Completed _ => true
    | Raised _ => false
    end
  /\ history_text window
     = Py.join Py.nl
         (map (fun m => role_name (role m) ++ Py.lit ": " ++ content m) shown)
  /\ shown `suffix_of` old
  /\ length shown = Nat.min 9 (length old).
Proof.
  intros old sd window shown. split; [|split; [|split]].
  - unfold chat, chat_with_session. fold old sd.
    change (default [] (chat_history st !! sid)) with old.
    unfold user_turn in window. fold window.
    destruct (generate_content _); reflexivity.
  - unfold history_text, window. rewrite window_of_ten, all_but_last.
    reflexivity.
  - apply suffix_drop.
  - unfold shown. rewrite length_drop. lia.
Qed.

End PromptWindow.

(** ** Dictionaries: insert, look up, delete *)

Section DictFacts.
Context {V : Type}.
Implicit Types (d : Dict.t V) (k : str) (v : V).

Lemma get_setitem k v d : Dict.get k (Dict.setitem k v d) = Some v.
Proof.
  induction d as [|[k' v'] d IH]; simpl.
  - destruct (decide (k = k)); [reflexivity|contradiction].
  - destruct (decide (k = k')) as [->|Hne]; simpl.
    + destruct (decide (k' = k')); [reflexivity|contradiction].
    + destruct (decide (k = k')); [contradiction|exact IH].
Qed.

Lemma get_setitem_ne k k' v d :
  k <> k' -> Dict.get k' (Dict.setitem k v d) = Dict.get k' d.
Proof.
  intros Hne. induction d as [|[k0 v0] d IH]; simpl.
  - destruct (decide (k' = k)); [congruence|reflexivity].
  - destruct (decide (k = k0)) as [->|Hne0]; simpl.
    + destruct (decide (k' = k0)); [congruence|reflexivity].
    + destruct (decide (k' = k0)); [reflexivity|exact IH].
Qed.

Lemma setitem_fresh k v d :
  Dict.mem k d = false -> Dict.setitem k v d = d ++ [(k, v)].
Proof.
  unfold Dict.mem. induction d as [|[k' v'] d IH]; simpl; [reflexivity|].
  destruct (decide (k = k')); [discriminate|].
  intros H. rewrite IH by exact H. reflexivity.
Qed.

Lemma setitem_present k v d :
  Dict.mem k d = true ->
  Dict.keys (Dict.setitem k v d) = Dict.keys d
  /\ length (Dict.setitem k v d) = length d.
Proof.
  unfold Dict.mem.
  induction d as [|[k' v'] d IH]; simpl; [discriminate|].
  destruct (decide (k = k')) as [->|Hne]; [split; reflexivity|].
  intros H. destruct (IH H) as [IH1 IH2]. split.
  - change (k' :: Dict.keys (Dict.setitem k v d) = k' :: Dict.keys d).
    f_equal. exact IH1.
  - simpl. f_equal. exact IH2.
Qed.

Lemma delitem_setitem_fresh k v d :
  Dict.mem k d = false -> Dict.delitem k (Dict.setitem k v d) = d.
Proof.
  unfold Dict.mem. induction d as [|[k' v'] d IH]; simpl.
  - destruct (decide (k = k)); [reflexivity|contradiction].
  - destruct (decide (k = k')); [discriminate|]. simpl.
    destruct (decide (k = k')); [contradiction|].
    intros H. rewrite IH by exact H. reflexivity.
Qed.

Lemma mem_setitem k v d : Dict.mem k (Dict.setitem k v d) = true.
Proof. unfold Dict.mem. rewrite get_setitem. reflexivity. Qed.

End DictFacts.

(** ** Uploading and deleting *)

(** X11.  An image uploaded under a new id and deleted again leaves the
    session with the mappings it had (only [last_activity] has moved); for
    an unknown session id that is the new, empty session, which stays in
    the store.  If the session had no other artifact, the deletion clears
    its conversation history; otherwise the histories are untouched. *)
Theorem upload_then_delete_image (clock : UploadClock) (sid fid : str)
    (path : str) (resized : option str) (filename : str) (st : AppState) :
  let before := session_or_new clock sid st in
  let out :=
    delete_single_image sid fid
      (upload_image clock sid fid path resized filename st) in
  Dict.mem fid (images before) = false ->
  admitted out.2 = true
  /\ sessions out.1 !! sid
     = Some (set_last_activity (u_activity clock) before)
  /\ (artifact_count before = 0 -> chat_history out.1 !! sid = None)
  /\ (artifact_count before <> 0 -> chat_history out.1 = chat_history st).
Proof.
  intros before out Hfresh. subst out.
  unfold delete_single_image, upload_image. fold before. simpl.
  rewrite lookup_insert_eq. simpl. rewrite mem_setitem. simpl.
  rewrite delitem_setitem_fresh by exact Hfresh.
  rewrite insert_insert_eq, lookup_insert_eq.
  split; [reflexivity|]. split; [destruct before; reflexivity|].
  set (after := set_images _ _).
  assert (artifact_count after = artifact_count before) as Hc
    by reflexivity.
  split; intros H.
  - assert (no_files_remain after = true) as ->
      by (apply no_files_remain_count; lia).
    apply drop_history_lookup.
  - destruct (no_files_remain after) eqn:E; [|reflexivity].
    apply no_files_remain_count in E. lia.
Qed.

Lemma upload_then_delete_image_witness :
  chat_history
    (delete_single_image (Py.lit "s") (Py.lit "9")
       (upload_image {| u_created := 5; u_first := 5; u_uploaded := 6;
                        u_activity := 7 |}
          (Py.lit "s") (Py.lit "9") (Py.lit "uploads/images/s_9_b.png")
          None (Py.lit "b.png") image_and_doc_state)).1
  = chat_history image_and_doc_state.
Proof.
  apply (upload_then_delete_image
           {| u_created := 5; u_first := 5; u_uploaded := 6; u_activity := 7 |}
           (Py.lit "s") (Py.lit "9") (Py.lit "uploads/images/s_9_b.png")
           None (Py.lit "b.png") image_and_doc_state).
  - reflexivity.
  - vm_compute. discriminate.
Defined.

(** X12.  An upload stores the image in the session of the given id (a
    new session when the id is unknown) and sets [last_activity].  Under a
    new file id the image becomes the last entry of the image mapping;
    under an id already in use it replaces that entry where it stands.  The
    other images, the CSVs, the documents and [created_at] of the session,
    the other sessions and all histories are left as they were. *)
Theorem upload_image_effect (clock : UploadClock) (sid fid : str)
    (path : str) (resized : option str) (filename : str) (st : AppState) :
  let before := session_or_new clock sid st in
  let after := upload_image clock sid fid path resized filename st in
  let info := {| img_path := path; img_resized_path := resized;
                 img_filename := filename;
                 img_uploaded_at := u_uploaded clock |} in
  exists sess,
    sessions after !! sid = Some sess
    /\ Dict.get fid (images sess) = Some info
    /\ (forall fid', fid <> fid' ->
          Dict.get fid' (images sess) = Dict.get fid' (images before))
    /\ (Dict.mem fid (images before) = false ->
        images sess = images before ++ [(fid, info)])
    /\ (Dict.mem fid (images before) = true ->
        Dict.keys (images sess) = Dict.keys (images before))
    /\ csvs sess = csvs before
    /\ documents sess = documents before
    /\ created_at sess = created_at before
    /\ last_activity sess = u_activity clock
    /\ chat_history after = chat_history st
    /\ (forall sid', sid' <> sid ->
          sessions after !! sid' = sessions st !! sid').
Proof.
  intros before after info. subst after. unfold upload_image. fold before info.
  eexists. split; [apply lookup_insert_eq|]. simpl.
  split; [apply get_setitem|].
  split; [intros fid' Hne; apply get_setitem_ne, Hne|].
  split; [apply setitem_fresh|].
  split; [intros H; apply setitem_present, H|].
  repeat (split; [reflexivity|]).
  intros sid' Hne. apply lookup_insert_ne. congruence.
Qed.

(** ** Bulk deletion, continued *)

Lemma no_files_remain_clear (k : Kind) (sess : Session) :
  no_files_remain (clear_kind k sess)
  = match k with
    | Images => Dict.is_empty (csvs sess) && Dict.is_empty (documents sess)
    | Csvs => Dict.is_empty (images sess) && Dict.is_empty (documents sess)
    | Documents => Dict.is_empty (images sess) && Dict.is_empty (csvs sess)
    end.
Proof.
  destruct k; unfold no_files_remain; simpl; try reflexivity.
  - destruct (Dict.is_empty (images sess)); reflexivity.
  - rewrite andb_true_r. reflexivity.
Qed.

(** The stores after a bulk deletion on a stored session. *)
Lemma delete_all_state (unlink : str -> bool) (k : Kind) (sid : str)
    (st : AppState) (sess : Session) :
  sessions st !! sid = Some sess ->
  (delete_all unlink k sid st).1
  = {| sessions := <[sid := clear_kind k sess]> (sessions st);
       chat_history :=
         if no_files_remain (clear_kind k sess)
         then drop_history sid (chat_history st)
         else chat_history st |}.
Proof.
  intros Hs. rewrite no_files_remain_clear.
  destruct k; simpl;
    unfold delete_all_images, delete_all_csvs, delete_all_documents;
    rewrite Hs; reflexivity.
Qed.

Lemma csv_count_bound (unlink : str -> bool) (l : Dict.t CsvInfo) (a : nat) :
  foldl (fun n '(_, csv_info) =>
           match csv_path csv_info with
           | Some p => n + unlinked unlink p
           | None => n
           end) a l
  <= a + length (List.filter (fun c => bool_decide (csv_path c.2 <> None)) l)
  /\ ((forall p, unlink p = true) ->
      foldl (fun n '(_, csv_info) =>
               match csv_path csv_info with
               | Some p => n + unlinked unlink p
               | None => n
               end) a l
      = a + length (List.filter
                      (fun c => bool_decide (csv_path c.2 <> None)) l)).
Proof.
  revert a. induction l as [|[k c] l IH]; intros a; simpl; [split; lia|].
  destruct (csv_path c) as [p|] eqn:E; simpl.
  - destruct (IH (a + unlinked unlink p)) as [IH1 IH2].
    pose proof (unlinked_le unlink p). split; [lia|].
    intros Hok. rewrite (IH2 Hok). unfold unlinked. rewrite Hok. lia.
  - apply IH.
Qed.

(** X13.  A bulk deletion on an unknown session answers [not_found] and
    changes nothing.  On a stored session it empties the mapping of its
    kind and keeps the session, with its two other mappings, in the store;
    when no artifact is left the history of the session is cleared.  The
    reported count is at most the number of removed artifacts that have a
    file (CSVs loaded from a URL have none), and equal to it when no
    unlink fails.  Other sessions and histories are untouched. *)
Theorem delete_all_effect (unlink : str -> bool) (k : Kind) (sid : str)
    (st : AppState) :
  let out := delete_all unlink k sid st in
  (sessions st !! sid = None ->
   out = (st, {| bd_status := Py.lit "not_found"; bd_count := 0;
                 bd_history_cleared := None |}))
  /\ (forall sess,
        sessions st !! sid = Some sess ->
        sessions out.1 !! sid = Some (clear_kind k sess)
        /\ kind_count k (clear_kind k sess) = 0
        /\ artifact_count (clear_kind k sess) + kind_count k sess
           = artifact_count sess
        /\ (artifact_count (clear_kind k sess) = 0 ->
            chat_history out.1 !! sid = None)
        /\ bd_count out.2 <= with_path k sess
        /\ ((forall p, unlink p = true) -> bd_count out.2 = with_path k sess)
        /\ (forall sid', sid' <> sid ->
              sessions out.1 !! sid' = sessions st !! sid'
              /\ chat_history out.1 !! sid' = chat_history st !! sid')).
Proof.
  intros out. subst out. split.
  - intros Hs. destruct k; simpl;
      unfold delete_all_images, delete_all_csvs, delete_all_documents;
      rewrite Hs; reflexivity.
  - intros sess Hs. rewrite (delete_all_state unlink k sid st sess Hs). simpl.
    split; [apply lookup_insert_eq|].
    split; [destruct k; reflexivity|].
    split; [destruct k; unfold artifact_count; simpl; lia|].
    split.
    { intros H0. apply no_files_remain_count in H0. rewrite H0.
      apply drop_history_lookup. }
    split; [|split].
    + destruct k; simpl;
        unfold delete_all_images, delete_all_csvs, delete_all_documents;
        rewrite Hs; simpl; unfold Dict.items.
      * etransitivity; [apply foldl_step_bound|lia].
        intros n [f i]. pose proof (unlinked_le unlink (img_path i)). lia.
      * apply (csv_count_bound unlink (csvs sess) 0).
      * etransitivity; [apply foldl_step_bound|lia].
        intros n [f d]. pose proof (unlinked_le unlink (doc_path d)). lia.
    + intros Hok. destruct k; simpl;
        unfold delete_all_images, delete_all_csvs, delete_all_documents;
        rewrite Hs; simpl; unfold Dict.items.
      * rewrite foldl_step_exact; [lia|].
        intros n [f i] _. unfold unlinked. rewrite Hok. reflexivity.
      * apply (csv_count_bound unlink (csvs sess) 0), Hok.
      * rewrite foldl_step_exact; [lia|].
        intros n [f d] _. unfold unlinked. rewrite Hok. reflexivity.
    + intros sid' Hne. split; [apply lookup_insert_ne; congruence|].
      destruct (no_files_remain _); [|reflexivity].
      apply drop_history_other, Hne.
Qed.

(** X14.  The three bulk deletions, in whatever order, leave the session
    in the store with no artifact and with its [created_at], and leave no
    conversation history for it. *)
Theorem delete_all_kinds_clears_history (unlink : str -> bool)
    (k1 k2 k3 : Kind) (sid : str) (st : AppState) (sess : Session) :
  sessions st !! sid = Some sess ->
  k1 <> k2 -> k1 <> k3 -> k2 <> k3 ->
  let st1 := (delete_all unlink k1 sid st).1 in
  let st2 := (delete_all unlink k2 sid st1).1 in
  let st3 := (delete_all unlink k3 sid st2).1 in
  chat_history st3 !! sid = None
  /\ exists sess',
       sessions st3 !! sid = Some sess'
       /\ artifact_count sess' = 0
       /\ created_at sess' = created_at sess.
Proof.
  intros Hs H12 H13 H23 st1 st2 st3.
  assert (sessions st1 !! sid = Some (clear_kind k1 sess)) as Hs1.
  { unfold st1. rewrite (delete_all_state _ _ _ _ _ Hs). simpl.
    apply lookup_insert_eq. }
  assert (sessions st2 !! sid = Some (clear_kind k2 (clear_kind k1 sess)))
    as Hs2.
  { unfold st2. rewrite (delete_all_state _ _ _ _ _ Hs1). simpl.
    apply lookup_insert_eq. }
  unfold st3. rewrite (delete_all_state _ _ _ _ _ Hs2). simpl.
  assert (artifact_count (clear_kind k3 (clear_kind k2 (clear_kind k1 sess)))
          = 0) as H0.
  { destruct k1, k2, k3; try contradiction; reflexivity. }
  split.
  - apply no_files_remain_count in H0. rewrite H0.
    apply drop_history_lookup.
  - eexists. split; [apply lookup_insert_eq|]. split; [exact H0|].
    destruct k1, k2, k3; reflexivity.
Qed.

Lemma delete_all_kinds_clears_history_witness :
  chat_history
    (delete_all (fun _ => true) Csvs (Py.lit "s")
       (delete_all (fun _ => true) Images (Py.lit "s")
          (delete_all (fun _ => true) Documents (Py.lit "s")
             image_and_doc_state).1).1).1 !! Py.lit "s" = None.
Proof.
  apply (delete_all_kinds_clears_history (fun _ => true) Documents Images
           Csvs (Py.lit "s") image_and_doc_state image_and_doc_session).
  - apply lookup_singleton_eq.
  - discriminate.
  - discriminate.
  - discriminate.
Defined.

(** ** Distinct ids *)

Section DictWf.
Context {V : Type}.
Implicit Types (d : Dict.t V) (k : str) (v : V).

Lemma mem_keys k d : Dict.mem k d = true <-> k ∈ Dict.keys d.
Proof.
  unfold Dict.mem, Dict.keys. induction d as [|[k' v'] d IH]; simpl.
  - split; [discriminate|]. intros H. inversion H.
  - destruct (decide (k = k')) as [->|Hne].
    + split; [intros _; left|reflexivity].
    + rewrite IH. split; [intros H; right; exact H|].
      intros H. apply elem_of_cons in H as [H|H]; [contradiction|exact H].
Qed.

Lemma keys_delitem k d k' :
  k' ∈ Dict.keys (Dict.delitem k d) -> k' ∈ Dict.keys d.
Proof.
  unfold Dict.keys. induction d as [|[k0 v0] d IH]; simpl; [auto|].
  destruct (decide (k = k0)); simpl.
  - intros H. right. exact H.
  - intros H. apply elem_of_cons in H as [->|H]; [left|right; auto].
Qed.

Lemma wf_delitem k d : Dict.wf d -> Dict.wf (Dict.delitem k d).
Proof.
  unfold Dict.wf. induction d as [|[k0 v0] d IH]; simpl; [auto|].
  intros Hnd. apply NoDup_cons in Hnd as [Hk0 Hnd].
  destruct (decide (k = k0)); [exact Hnd|].
  change (NoDup (k0 :: Dict.keys (Dict.delitem k d))).
  apply NoDup_cons. split; [|apply IH, Hnd].
  intros H. apply Hk0. apply (keys_delitem k d k0 H).
Qed.

(** Once deleted, an id is not in the dictionary any more. *)
Lemma mem_delitem k d : Dict.wf d -> Dict.mem k (Dict.delitem k d) = false.
Proof.
  unfold Dict.wf. induction d as [|[k0 v0] d IH]; simpl; [reflexivity|].
  intros Hnd. apply NoDup_cons in Hnd as [Hk0 Hnd].
  destruct (decide (k = k0)) as [->|Hne].
  - destruct (Dict.mem k0 d) eqn:E; [|reflexivity].
    apply mem_keys in E. contradiction.
  - unfold Dict.mem. simpl.
    destruct (decide (k = k0)); [contradiction|]. apply IH, Hnd.
Qed.

Lemma keys_setitem k v d k' :
  k' ∈ Dict.keys (Dict.setitem k v d) -> k' = k \/ k' ∈ Dict.keys d.
Proof.
  unfold Dict.keys. induction d as [|[k0 v0] d IH]; simpl.
  - intros H. apply elem_of_cons in H as [H|H]; [left; exact H|inversion H].
  - destruct (decide (k = k0)) as [->|Hne]; simpl.
    + intros H. right. exact H.
    + intros H. apply elem_of_cons in H as [->|H].
      * right. left.
      * destruct (IH H) as [?|?]; [left; assumption|right; right; assumption].
Qed.

Lemma wf_setitem k v d : Dict.wf d -> Dict.wf (Dict.setitem k v d).
Proof.
  unfold Dict.wf. induction d as [|[k0 v0] d IH]; simpl.
  - intros _. apply NoDup_singleton.
  - intros Hnd. apply NoDup_cons in Hnd as [Hk0 Hnd].
    destruct (decide (k = k0)) as [->|Hne].
    + change (NoDup (k0 :: Dict.keys d)). apply NoDup_cons. auto.
    + change (NoDup (k0 :: Dict.keys (Dict.setitem k v d))).
      apply NoDup_cons. split; [|apply IH, Hnd].
      intros H. apply keys_setitem in H as [H|H]; [congruence|contradiction].
Qed.

End DictWf.

Lemma wf_nil {V} : Dict.wf (@nil (str * V)).
Proof. apply NoDup_nil. reflexivity. Qed.

(** Distinct ids are kept by every handler that writes to the session
    store. *)
Lemma store_wf_insert (st : AppState) (sid : str) (sess : Session)
    (h : gmap str (list Message)) :
  store_wf st ->
  Dict.wf (images sess) -> Dict.wf (csvs sess) -> Dict.wf (documents sess) ->
  store_wf {| sessions := <[sid := sess]> (sessions st); chat_history := h |}.
Proof.
  intros Hwf Hi Hc Hd sid' sess'. simpl.
  destruct (decide (sid = sid')) as [<-|Hne].
  - rewrite lookup_insert_eq. intros [= <-]. auto.
  - rewrite lookup_insert_ne by assumption. apply Hwf.
Qed.

Lemma session_or_new_wf (clock : UploadClock) (sid : str) (st : AppState) :
  store_wf st ->
  Dict.wf (images (session_or_new clock sid st))
  /\ Dict.wf (csvs (session_or_new clock sid st))
  /\ Dict.wf (documents (session_or_new clock sid st)).
Proof.
  intros Hwf. unfold session_or_new.
  destruct (sessions st !! sid) as [sess|] eqn:E; [apply (Hwf sid), E|].
  simpl. repeat split; apply wf_nil.
Qed.

Lemma store_wf_upload (clock : UploadClock) (sid fid : str) (st : AppState) :
  store_wf st ->
  (forall path resized filename,
     store_wf (upload_image clock sid fid path resized filename st))
  /\ (forall path filename df,
        store_wf (upload_csv clock sid fid path filename df st))
  /\ (forall path filename text,
        store_wf (upload_document clock sid fid path filename text st)).
Proof.
  intros Hwf.
  destruct (session_or_new_wf clock sid st Hwf) as (Hi & Hc & Hd).
  split; [|split]; intros;
    unfold upload_image, upload_csv, upload_document;
    apply store_wf_insert; simpl; auto using wf_setitem.
Qed.

Lemma store_wf_delete_single (k : Kind) (sid fid : str) (st : AppState) :
  store_wf st -> store_wf (delete_single k sid fid st).1.
Proof.
  intros Hwf.
  destruct k; simpl;
    unfold delete_single_image, delete_single_csv, delete_single_document;
    destruct (sessions st !! sid) as [sess|] eqn:E; try exact Hwf;
    destruct (Dict.mem fid _); try exact Hwf; simpl;
    destruct (Hwf sid sess E) as (Hi & Hc & Hd);
    apply store_wf_insert; simpl; auto using wf_delitem.
Qed.

Lemma store_wf_delete_all (unlink : str -> bool) (k : Kind) (sid : str)
    (st : AppState) :
  store_wf st -> store_wf (delete_all unlink k sid st).1.
Proof.
  intros Hwf.
  destruct k; simpl;
    unfold delete_all_images, delete_all_csvs, delete_all_documents;
    destruct (sessions st !! sid) as [sess|] eqn:E; try exact Hwf; simpl;
    destruct (Hwf sid sess E) as (Hi & Hc & Hd);
    apply store_wf_insert; simpl; auto using wf_nil.
Qed.

Lemma store_wf_empty : store_wf empty_state.
Proof. intros sid sess. simpl. rewrite lookup_empty. discriminate. Qed.

(** X15.  Deleting the same artifact a second time fails: after a
    successful deletion the id is gone from its mapping, so the second
    call raises 404 and changes nothing. *)
Theorem delete_single_twice (k : Kind) (sid fid : str) (st : AppState)
    (sess : Session) :
  store_wf st ->
  sessions st !! sid = Some sess ->
  has_artifact k fid sess = true ->
  let st1 := (delete_single k sid fid st).1 in
  admitted (delete_single k sid fid st).2 = true
  /\ admitted (delete_single k sid fid st1).2 = false
  /\ (delete_single k sid fid st1).1 = st1.
Proof.
  intros Hwf Hs Hin st1. subst st1.
  destruct (Hwf sid sess Hs) as (Hi & Hc & Hd).
  destruct k; simpl in Hin |- *;
    unfold delete_single_image, delete_single_csv, delete_single_document;
    rewrite Hs, Hin; simpl; rewrite lookup_insert_eq; simpl;
    rewrite mem_delitem by assumption; auto.
Qed.

Lemma delete_single_twice_witness :
  admitted
    (delete_single Images (Py.lit "s") (Py.lit "1")
       (delete_single Images (Py.lit "s") (Py.lit "1")
          image_and_doc_state).1).2 = false.
Proof.
  apply (delete_single_twice Images (Py.lit "s") (Py.lit "1")
           image_and_doc_state image_and_doc_session).
  - intros sid sess. unfold image_and_doc_state. simpl.
    intros H. apply lookup_singleton_Some in H as [_ <-].
    simpl. unfold Dict.wf, Dict.keys. simpl.
    repeat split; repeat constructor; set_solver.
  - apply lookup_singleton_eq.
  - reflexivity.
Defined.

(** ** Listing images *)

Lemma ascending_map {A B} (f : A -> B) (keyA : A -> Z) (keyB : B -> Z)
    (l : list A) :
  (forall x, keyB (f x) = keyA x) ->
  ascending keyA l -> ascending keyB (map f l).
Proof.
  intros Hk. unfold ascending. induction 1 as [|x l Hl IH Hx]; simpl.
  - constructor.
  - constructor; [exact IH|].
    apply Forall_forall. intros y Hy.
    apply list_elem_of_In, in_map_iff in Hy as (z & <- & Hz).
    rewrite !Hk. rewrite Forall_forall in Hx.
    apply Hx, list_elem_of_In, Hz.
Qed.

(** X16.  [list_images] lists every image of the session once, in
    ascending order of [uploaded_at], images uploaded at the same time
    staying in insertion order; [count] is the number of images.  For an
    unknown session the list is empty. *)
Theorem list_images_sorted (sid : str) (st : AppState) :
  (sessions st !! sid = None ->
   ir_count (list_images sid st) = 0 /\ ir_images (list_images sid st) = [])
  /\ (forall sess,
        sessions st !! sid = Some sess ->
        let entry := fun x : str * ImageInfo =>
                       {| ie_file_id := x.1; ie_filename := img_filename x.2;
                          ie_uploaded_at := img_uploaded_at x.2 |} in
        ir_count (list_images sid st) = length (images sess)
        /\ ir_images (list_images sid st) ≡ₚ map entry (images sess)
        /\ ascending ie_uploaded_at (ir_images (list_images sid st))
        /\ (forall t,
              filter (fun e => ie_uploaded_at e = t)
                     (ir_images (list_images sid st))
              = filter (fun e => ie_uploaded_at e = t)
                       (map entry (images sess)))).
Proof.
  split.
  - unfold list_images. intros ->. split; reflexivity.
  - intros sess Hs entry. unfold list_images. rewrite Hs. simpl.
    unfold sorted_images, Dict.items.
    set (key := fun x : str * ImageInfo => img_uploaded_at x.2).
    assert (forall l : list (str * ImageInfo),
              map (fun '(file_id, info) =>
                     {| ie_file_id := file_id; ie_filename := img_filename info;
                        ie_uploaded_at := img_uploaded_at info |}) l
              = map entry l) as Hmap.
    { intros l. apply map_ext. intros [f i]. reflexivity. }
    rewrite Hmap.
    split; [rewrite sort_by_perm; reflexivity|].
    split; [rewrite sort_by_perm; reflexivity|].
    split.
    + apply (ascending_map entry key); [reflexivity|apply sort_by_ascending].
    + intros t.
      assert (forall l : list (str * ImageInfo),
                filter (fun e => ie_uploaded_at e = t) (map entry l)
                = map entry (filter (fun x => key x = t) l)) as Hf.
      { induction l as [|x l IH]; [reflexivity|]. simpl.
        rewrite !filter_cons. change (ie_uploaded_at (entry x)) with (key x).
        destruct (decide (key x = t)); simpl; rewrite IH; reflexivity. }
      rewrite !Hf, sort_by_stable. reflexivity.
Qed.

(** ** The budget of document text *)

Lemma remaining_marker_len : Py.len remaining_truncated_marker = 36%Z.
Proof. reflexivity. Qed.

Lemma truncate_doc_len (text : str) :
  (Py.len (truncate_doc text) <= 15025)%Z.
Proof.
  destruct (decide (Py.len text <= max_chars_per_doc)%Z) as [H|H].
  - rewrite truncate_doc_short by exact H. unfold max_chars_per_doc in H. lia.
  - rewrite truncate_doc_long_len; [lia|]. lia.
Qed.

Lemma total_len_cons (t : str) (texts : list str) :
  total_len (t :: texts) = (Py.len t + total_len texts)%Z.
Proof. reflexivity. Qed.

(** The texts the loop adds, when [total] characters are counted. *)
Lemma doc_loop_texts_bound (items : list (str * DocInfo)) (total : Z) :
  (total <= max_total_chars)%Z ->
  (total_len (texts_of (doc_loop items total))
   <= max_total_chars - total + 36)%Z.
Proof.
  revert total. induction items as [|[fid d] items IH]; intros total Hle.
  - simpl. lia.
  - cbn [doc_loop].
    destruct (_ >? max_total_chars)%Z eqn:E.
    + destruct (_ >? 1000)%Z eqn:E'; [|simpl; lia].
      cbn [texts_of]. rewrite total_len_cons.
      pose proof remaining_marker_len as Hm.
      rewrite slice_to_take by lia.
      unfold Py.len in *. rewrite length_app, length_take.
      change (total_len []) with 0%Z. lia.
    + cbn [texts_of]. rewrite total_len_cons.
      specialize (IH (total + Py.len (truncate_doc (doc_text d)))%Z).
      lia.
Qed.

(** X17.  However many documents a session has and however long they
    are, the document block of a prompt holds at most 50036 characters of
    document text (the global cap and one marker) in at most two entries
    per document; the text of one document is cut to at most 15025
    characters and starts with the first 15000 characters of the
    document. *)
Theorem doc_text_budget (documents : Dict.t DocInfo) :
  (total_len (texts_of (doc_loop (Dict.items documents) 0)) <= 50036)%Z
  /\ length (doc_context documents) <= 1 + 2 * length documents
  /\ (forall text,
        (Py.len (truncate_doc text) <= 15025)%Z
        /\ take (Z.to_nat 15000) text `prefix_of` truncate_doc text).
Proof.
  split; [|split].
  - pose proof (doc_loop_texts_bound (Dict.items documents) 0) as H.
    unfold max_total_chars in H. lia.
  - unfold doc_context, Dict.items. simpl. apply le_n_S.
    generalize 0%Z. induction documents as [|[fid d] l IH]; intros total.
    + simpl. lia.
    + cbn [doc_loop]. destruct (_ >? max_total_chars)%Z.
      * destruct (_ >? 1000)%Z; simpl; lia.
      * simpl. specialize (IH (total + Py.len (truncate_doc (doc_text d)))%Z).
        lia.
  - intros text. split; [apply truncate_doc_len|].
    unfold truncate_doc.
    rewrite slice_to_take by (unfold max_chars_per_doc; lia).
    apply prefix_app_r. reflexivity.
Qed.

(** ** The rate limiter, continued *)

Lemma filter_all {A} (P : A -> Prop) `{forall x, Decision (P x)}
    (l : list A) :
  (forall x, x ∈ l -> P x) -> filter P l = l.
Proof.
  induction l as [|x l IH]; intros Hall; [reflexivity|].
  rewrite filter_cons. destruct (decide (P x)) as [_|Hn].
  - f_equal. apply IH. intros y Hy. apply Hall. right. exact Hy.
  - exfalso. apply Hn, Hall. left.
Qed.

Lemma filter_none {A} (P : A -> Prop) `{forall x, Decision (P x)}
    (l : list A) :
  (forall x, x ∈ l -> ~ P x) -> filter P l = [].
Proof.
  induction l as [|x l IH]; intros Hall; [reflexivity|].
  rewrite filter_cons. destruct (decide (P x)) as [Hp|_].
  - exfalso. apply (Hall x); [left|exact Hp].
  - apply IH. intros y Hy. apply Hall. right. exact Hy.
Qed.

(** X18.  After a request at time [now], every timestamp recorded for the
    client is less than 60 seconds old and at most one timestamp was
    added.  A client that had at most [limit] timestamps recorded still
    has at most [limit].  An admitted request reports a remaining quota
    between 0 and [limit - 1]; a rejected one raises 429. *)
Theorem dispatch_bounds (ip : str) (now : Z) (rl : RateLimiter) :
  let out := dispatch ip now rl in
  let limit := requests_per_minute rl in
  (forall t, t ∈ recorded ip out.1 -> (now - t < 60)%Z)
  /\ length (recorded ip out.1) <= length (recorded ip rl) + 1
  /\ ((Py.len (recorded ip rl) <= Z.max 0 limit)%Z ->
      (Py.len (recorded ip out.1) <= Z.max 0 limit)%Z)
  /\ (forall remaining,
        out.2 = Returned remaining ->
        (0 <= remaining < limit)%Z
        /\ remaining = (limit - Py.len (recorded ip out.1))%Z)
  /\ (forall code detail,
        out.2 = HTTPException code detail -> code = 429%Z).
Proof.
  intros out limit. subst out limit. rewrite dispatch_unfold. cbv zeta.
  set (kept := window now (recorded ip rl)).
  assert (forall t, t ∈ kept -> (now - t < 60)%Z) as Hk.
  { intros t Ht. unfold kept, window in Ht.
    apply list_elem_of_filter in Ht as [Ht _]. lia. }
  assert (length kept <= length (recorded ip rl)) as Hlen
    by apply length_filter.
  destruct (Py.len kept >=? requests_per_minute rl)%Z eqn:E; simpl;
    rewrite !recorded_set_requests.
  - split; [exact Hk|]. split; [lia|].
    split; [unfold Py.len; lia|].
    split; [discriminate|]. intros code detail [= <- _]. reflexivity.
  - split.
    { intros t Ht. apply elem_of_app in Ht as [Ht|Ht]; [apply Hk, Ht|].
      apply list_elem_of_singleton in Ht. subst t. lia. }
    split; [rewrite length_app; simpl; lia|].
    split; [unfold Py.len in *; rewrite length_app; simpl; lia|].
    split; [|discriminate].
    intros remaining [= <-]. unfold Py.len in *.
    rewrite length_app. simpl. lia.
Qed.

(** The answers to a burst of requests, from the timestamps recorded. *)
Lemma burst_admitted (ip : str) (times : list Z) (rl : RateLimiter) :
  (forall t now, t ∈ recorded ip rl -> now ∈ times -> (now - t < 60)%Z) ->
  (forall t now, t ∈ times -> now ∈ times -> (now - t < 60)%Z) ->
  admitted_count (dispatch_all ip times rl).2
  = Nat.min (length times)
      (Z.to_nat (requests_per_minute rl - Py.len (recorded ip rl))).
Proof.
  revert rl. induction times as [|now rest IH]; intros rl Hold Hpair.
  - reflexivity.
  - rewrite dispatch_all_cons.
    assert (window now (recorded ip rl) = recorded ip rl) as Hw.
    { unfold window. apply filter_all. intros t Ht.
      specialize (Hold t now Ht ltac:(left)). lia. }
    destruct (Py.len (recorded ip rl) >=? requests_per_minute rl)%Z eqn:E.
    + destruct (dispatch_step ip now rl (recorded ip rl) (recorded ip rl)
                  false) as (Ha & Hr & Hl);
        [reflexivity|rewrite Hw; exact E|rewrite Hw; reflexivity|].
      rewrite Ha. unfold admitted_count in *. cbn [List.filter id].
      rewrite IH.
      * rewrite Hr, Hl. cbn [length]. lia.
      * rewrite Hr. intros t now' Ht Hn. apply Hold; [exact Ht|right; exact Hn].
      * intros t now' Ht Hn. apply Hpair; right; assumption.
    + destruct (dispatch_step ip now rl (recorded ip rl)
                  (recorded ip rl ++ [now]) true) as (Ha & Hr & Hl);
        [reflexivity|rewrite Hw; exact E|rewrite Hw; reflexivity|].
      rewrite Ha. unfold admitted_count in *. cbn [List.filter id length].
      rewrite IH.
      * rewrite Hr, Hl. unfold Py.len in *. rewrite length_app.
        cbn [length]. lia.
      * rewrite Hr. intros t now' Ht Hn.
        apply elem_of_app in Ht as [Ht|Ht].
        -- apply Hold; [exact Ht|right; exact Hn].
        -- apply list_elem_of_singleton in Ht. subst t.
           apply Hpair; [left|right; exact Hn].
      * intros t now' Ht Hn. apply Hpair; right; assumption.
Qed.

(** X19.  Of the requests a client sends within less than 60 seconds,
    starting with nothing recorded, exactly the first [limit] are admitted
    (all of them when there are fewer, none when the limit is not
    positive): the number of admitted requests is
    [min (number of requests) limit]. *)
Theorem burst_within_window (ip : str) (times : list Z) (rl : RateLimiter) :
  recorded ip rl = [] ->
  (forall t now, t ∈ times -> now ∈ times -> (now - t < 60)%Z) ->
  admitted_count (dispatch_all ip times rl).2
  = Nat.min (length times) (Z.to_nat (requests_per_minute rl)).
Proof.
  intros Hempty Hpair. rewrite burst_admitted.
  - rewrite Hempty. unfold Py.len. simpl. rewrite Z.sub_0_r. reflexivity.
  - rewrite Hempty. intros t now Ht. inversion Ht.
  - exact Hpair.
Qed.

Lemma burst_within_window_witness :
  admitted_count (dispatch_all (Py.lit "10.0.0.1") [0; 1; 2; 3; 59]%Z
                    limiter3).2 = 3.
Proof.
  apply (burst_within_window (Py.lit "10.0.0.1") [0; 1; 2; 3; 59]%Z limiter3).
  - reflexivity.
  - intros t now Ht Hn.
    assert (0 <= t <= 59 /\ 0 <= now <= 59)%Z; [|lia].
    split.
    + repeat (apply elem_of_cons in Ht as [->|Ht]; [lia|]). inversion Ht.
    + repeat (apply elem_of_cons in Hn as [->|Hn]; [lia|]). inversion Hn.
Defined.

(** X20.  A client all of whose recorded requests are at least 60 seconds
    old starts afresh: when the limit is at least 1 the request is
    admitted, only its own timestamp stays recorded and the remaining
    quota is [limit - 1].  With a limit of 0 or less every request is
    rejected. *)
Theorem dispatch_after_idle (ip : str) (now : Z) (rl : RateLimiter) :
  ((forall t, t ∈ recorded ip rl -> (now - t >= 60)%Z) ->
   (1 <= requests_per_minute rl)%Z ->
   (dispatch ip now rl).2 = Returned (requests_per_minute rl - 1)%Z
   /\ recorded ip (dispatch ip now rl).1 = [now])
  /\ ((requests_per_minute rl <= 0)%Z ->
      admitted (dispatch ip now rl).2 = false).
Proof.
  rewrite dispatch_unfold. cbv zeta. split.
  - intros Hold Hlim.
    assert (window now (recorded ip rl) = []) as ->.
    { unfold window. apply filter_none. intros t Ht. specialize (Hold t Ht).
      lia. }
    destruct (Py.len [] >=? requests_per_minute rl)%Z eqn:E;
      [apply Z.geb_le in E; change (Py.len (@nil Z)) with 0%Z in E; lia|].
    simpl. rewrite recorded_set_requests. split; reflexivity.
  - intros Hlim.
    destruct (Py.len _ >=? requests_per_minute rl)%Z eqn:E; [reflexivity|].
    pose proof (len_nonneg (window now (recorded ip rl))). lia.
Qed.

(** ** The chunks of the splitters *)

Section SplitTextChunks.

Variable self : Splitter.TextSplitter.

Lemma all_stripped_snoc (chunks : list str) (c : str) :
  all_stripped chunks -> all_stripped (chunks ++ [Py.strip c]).
Proof.
  intros H. apply Forall_app. split; [exact H|].
  constructor; [apply strip_idemp|constructor].
Qed.

Lemma sentence_step_stripped (a : Splitter.acc) (sentence : str) :
  all_stripped a.1 ->
  all_stripped (Splitter.sentence_step self a sentence).1.
Proof.
  destruct a as [chunks cur]. unfold Splitter.sentence_step. simpl.
  intros H. destruct (_ >? _)%Z; [|exact H].
  destruct (nonempty cur); [apply all_stripped_snoc, H|exact H].
Qed.

Lemma sentences_stripped (l : list str) (a : Splitter.acc) :
  all_stripped a.1 ->
  all_stripped (foldl (Splitter.sentence_step self) a l).1.
Proof.
  revert a. induction l as [|s l IH]; intros a H; [exact H|].
  simpl. apply IH, sentence_step_stripped, H.
Qed.

Lemma text_step_stripped (a : Splitter.acc) (split : str) :
  all_stripped a.1 -> all_stripped (Splitter.text_step self a split).1.
Proof.
  destruct a as [chunks cur]. unfold Splitter.text_step. simpl.
  intros H. destruct (_ >? _)%Z; [|exact H].
  destruct (nonempty cur).
  - destruct (_ >? _)%Z; [|apply all_stripped_snoc, H].
    apply sentences_stripped. simpl. apply all_stripped_snoc, H.
  - destruct (_ >? _)%Z; [|exact H].
    apply sentences_stripped. exact H.
Qed.

Lemma text_loop_stripped (l : list str) (a : Splitter.acc) :
  all_stripped a.1 ->
  all_stripped (foldl (Splitter.text_step self) a l).1.
Proof.
  revert a. induction l as [|s l IH]; intros a H; [exact H|].
  simpl. apply IH, text_step_stripped, H.
Qed.

(** X21.  [TextSplitter.split_text] raises on an empty separator and on
    nothing else.  None of the chunks it returns is empty, and none has
    whitespace at its beginning or at its end. *)
Theorem split_text_chunks_stripped (text : str) :
  (Splitter.split_text self text = None <-> Splitter.separator self = [])
  /\ (forall chunks chunk,
        Splitter.split_text self text = Some chunks ->
        chunk ∈ chunks ->
        exists c t,
          chunk = c :: t
          /\ Py.strip chunk = chunk
          /\ Py.isspace c = false
          /\ Py.isspace (List.last chunk c) = false).
Proof.
  unfold Splitter.split_text. split.
  - destruct (Splitter.separator self) as [|c sep]; simpl.
    + split; reflexivity.
    + destruct (foldl _ _ _) as [chunks cur].
      split; discriminate.
  - intros chunks chunk.
    destruct (nonempty (Splitter.separator self)); [|discriminate].
    pose proof (text_loop_stripped
                  (Splitter.split (Splitter.separator self) text) ([], [])
                  (Forall_nil_2 _)) as Hloop.
    destruct (foldl _ _ _) as [chunks0 cur]. simpl in Hloop.
    intros [= <-] Hin.
    apply list_elem_of_In, filter_In in Hin as [Hin Hne].
    assert (Py.strip chunk = chunk) as Hs.
    { destruct (nonempty cur).
      - apply all_stripped_snoc with (c := cur) in Hloop.
        unfold all_stripped in Hloop. rewrite Forall_forall in Hloop.
        apply Hloop, list_elem_of_In, Hin.
      - unfold all_stripped in Hloop. rewrite Forall_forall in Hloop.
        apply Hloop, list_elem_of_In, Hin. }
    destruct chunk as [|c t]; [discriminate|].
    exists c, t. split; [reflexivity|]. split; [exact Hs|].
    apply (strip_ends (c :: t) c t Hs).
Qed.

End SplitTextChunks.

Lemma erases_length (P : ascii -> bool) (s t : str) :
  erases P s t -> length t <= length s.
Proof. induction 1; simpl; lia. Qed.

Lemma erases_chars (P : ascii -> bool) (s t : str) (c : ascii) :
  erases P s t -> c ∈ t -> c ∈ s.
Proof.
  induction 1 as [|d s t H IH|d s t Hd H IH]; intros Hc.
  - exact Hc.
  - apply elem_of_cons in Hc as [->|Hc]; [left|right; auto].
  - right. auto.
Qed.

(** X22.  Without overlap the recursive splitter never repeats or invents
    text, whatever the chunk size: the chunks together are not longer than
    the text, and every character of a chunk is a character of the
    text. *)
Theorem recursive_split_no_growth (self : Splitter.TextSplitter)
    (text : str) :
  (Splitter.chunk_overlap self <= 0)%Z ->
  length (concat (Splitter.recursive_split_text self text)) <= length text
  /\ (forall chunk c,
        chunk ∈ Splitter.recursive_split_text self text ->
        c ∈ chunk -> c ∈ text).
Proof.
  intros Hov.
  assert (erases droppable text
            (concat (Splitter.recursive_split_text self text))) as He.
  { unfold Splitter.recursive_split_text. apply split_recursive_erases.
    - intros c Hc. unfold droppable. rewrite Hc. reflexivity.
    - exact Hov.
    - apply separators_droppable. }
  split; [apply (erases_length _ _ _ He)|].
  intros chunk c Hchunk Hc. apply (erases_chars _ _ _ c He).
  apply list_elem_of_In, in_concat. exists chunk.
  split; apply list_elem_of_In; assumption.
Qed.

Lemma recursive_split_no_growth_witness :
  length (concat (Splitter.recursive_split_text
                    (Splitter.RecursiveTextSplitter 5 0) two_paragraphs))
  <= length two_paragraphs.
Proof.
  apply (recursive_split_no_growth (Splitter.RecursiveTextSplitter 5 0)
           two_paragraphs).
  simpl. lia.
Defined.

(** ** Reading a history *)

(** X23.  The two ways of reading a history agree when nothing is cut:
    [get_chat_history] with [limit = 0], or with a limit that is at least
    the number of messages, returns what [get_full_chat_history] returns,
    and both answer an unknown session with an empty history. *)
Theorem history_reads_agree (sid : str) (limit : Z) (st : AppState) :
  (limit = 0%Z
   \/ (Py.len (default [] (chat_history st !! sid)) <= limit)%Z) ->
  get_chat_history sid limit st = get_full_chat_history sid st
  /\ (chat_history st !! sid = None ->
      hr_messages (get_full_chat_history sid st) = []
      /\ hr_total_messages (get_full_chat_history sid st) = 0).
Proof.
  intros Hl. unfold get_chat_history, get_full_chat_history.
  destruct (chat_history st !! sid) as [history|] eqn:E; simpl in *.
  - split; [|discriminate]. f_equal.
    destruct (limit =? 0)%Z eqn:E0; [reflexivity|].
    destruct Hl as [Hl|Hl]; [lia|].
    destruct (decide (limit = 0%Z)) as [->|Hne]; [discriminate|].
    assert (0 < limit)%Z as Hpos
      by (pose proof (len_nonneg history); lia).
    rewrite slice_from_last by exact Hpos.
    unfold Py.len in Hl.
    replace (length history - Z.to_nat limit) with 0 by lia. reflexivity.
  - split; [reflexivity|]. intros _. split; reflexivity.
Qed.

Lemma history_reads_agree_witness :
  get_chat_history (Py.lit "s") 50 three_messages_state
  = get_full_chat_history (Py.lit "s") three_messages_state.
Proof.
  apply (history_reads_agree (Py.lit "s") 50 three_messages_state).
  right. vm_compute. discriminate.
Defined.

(** ** The images of a prompt *)

(** X24.  The images sent to the model are exactly the images of the
    session that could be opened, in the order of the mapping; an image
    that cannot be opened sends no image, and the prompt is never empty:
    its last entry is the user question. *)
Theorem prompt_images_are_loadable (PILImage : Type)
    (Image_open : str -> option PILImage) (message : str)
    (history : list Message) (images : Dict.t ImageInfo)
    (csvs : Dict.t CsvInfo) (documents : Dict.t DocInfo) (ordered : str) :
  let parts :=
    context_parts PILImage Image_open message history images csvs documents
      ordered in
  image_parts parts = loadable Image_open images
  /\ length (image_parts parts) <= length images
  /\ List.last parts (PText [])
     = PText (Py.nl ++ Py.lit "User question: " ++ message).
Proof.
  intros parts. subst parts.
  assert (forall l : Dict.t ImageInfo,
            image_parts (image_loop PILImage Image_open l)
            = loadable Image_open l) as Hloop.
  { unfold image_loop, image_parts, loadable, Dict.items.
    induction l as [|[fid info] l IH]; [reflexivity|].
    simpl. rewrite flat_map_app, IH. f_equal.
    unfold image_entries. simpl.
    destruct (Image_open (image_path info)); reflexivity. }
  assert (forall a b : list (Part PILImage),
            image_parts (a ++ b) = image_parts a ++ image_parts b) as Happ.
  { intros a b. unfold image_parts. apply flat_map_app. }
  assert (image_parts
            (context_parts PILImage Image_open message history images csvs
               documents ordered) = loadable Image_open images) as Heq.
  { unfold context_parts. rewrite !Happ.
    destruct (nonempty history && nonempty (history_text history));
      destruct (nonempty ordered); destruct (nonempty csvs);
      destruct (nonempty documents); cbn [image_parts flat_map app];
      rewrite ?app_nil_r;
      (destruct images as [|x images']; [reflexivity|]);
      cbn [nonempty]; rewrite Happ, Hloop;
      unfold images_note; destruct (_ >? 1)%Z;
      cbn [image_parts flat_map app]; apply app_nil_r. }
  split; [exact Heq|]. split.
  - rewrite Heq. clear Heq. unfold loadable.
    induction images as [|x l IH]; [reflexivity|].
    cbn [flat_map]. rewrite length_app. cbn [length].
    destruct (Image_open (image_path x.2)); cbn [length]; lia.
  - unfold context_parts. rewrite !app_assoc. apply last_last.
Qed.
